(** * Input pipelines of ALBERT-TF2.0 ([input_pipeline.py])

    A shallow embedding of the record decoding, the feature/label selection
    and the dataset construction of [input_pipeline.py], together with the
    properties its specification states about them.

    The TensorFlow library is external to the repository.  Its record parser
    [tf.io.parse_single_example] and the random order chosen by
    [Dataset.shuffle] are Section variables, so every theorem holds for any
    behaviour of the library; a small reference parser is given at the end of
    the definitions and is used to exercise the theorems on concrete
    records. *)

From Stdlib Require Import ZArith String List Bool Lia.
From stdpp Require Import base option list strings gmap fin_maps.

Local Open Scope string_scope.
Local Open Scope list_scope.
Local Open Scope Z_scope.

(** ** Errors and fallible computations *)

(** The exceptions that can travel through the pipeline: the library's own
    errors ([tf.errors.InvalidArgumentError], [tf.errors.UnimplementedError])
    and Python's [KeyError] on a dictionary subscript. *)
Inductive Error :=
| InvalidArgumentError (msg : string)
| UnimplementedError (msg : string)
| KeyError (key : string).

Inductive Result (A : Type) :=
| Ok (a : A)
| Raise (e : Error).
Arguments Ok {A} a.
Arguments Raise {A} e.

#[global] Instance Result_ret : MRet Result := fun A a => Ok a.

#[global] Instance Result_bind : MBind Result := fun A B k r =>
  match r with
  | Ok a => k a
  | Raise e => Raise e
  end.

(** Whether a computation returned. *)
Definition is_ok {A} (r : Result A) : bool :=
  match r with
  | Ok _ => true
  | Raise _ => false
  end.

(** ** Tensors *)

Inductive DType := DT_FLOAT | DT_INT32 | DT_INT64 | DT_STRING.

Definition DType_eqb (a b : DType) : bool :=
  match a, b with
  | DT_FLOAT, DT_FLOAT | DT_INT32, DT_INT32
  | DT_INT64, DT_INT64 | DT_STRING, DT_STRING => true
  | _, _ => false
  end.

(** The elements of a tensor, by element type.  A float is kept as its
    IEEE-754 single precision bit pattern: the pipeline never computes with
    floats, it only moves them. *)
Inductive Values :=
| Float32s (l : list Z)
| Int32s (l : list Z)
| Int64s (l : list Z)
| Strings (l : list string).

Record Tensor := mkTensor { shape : list Z; values : Values }.

(** [t.dtype] *)
Definition dtype (t : Tensor) : DType :=
  match values t with
  | Float32s _ => DT_FLOAT
  | Int32s _ => DT_INT32
  | Int64s _ => DT_INT64
  | Strings _ => DT_STRING
  end.

(** Two's complement truncation of an integer to 32 bits, which is what a
    cast from int64 to int32 does to each element. *)
Definition wrap32 (z : Z) : Z := (z + 2 ^ 31) mod 2 ^ 32 - 2 ^ 31.

(** [tf.cast(t, target)].  A cast to the tensor's own element type returns
    the tensor; int64 to int32 truncates every element.  The library refuses
    to cast strings; the numeric casts that involve floats or widen integers
    are not used by the pipeline and are outside this model, which reports
    them as unimplemented too. *)
Definition tf_cast (t : Tensor) (target : DType) : Result Tensor :=
  if DType_eqb (dtype t) target then Ok t
  else
    match values t, target with
    | Int64s l, DT_INT32 => Ok (mkTensor (shape t) (Int32s (map wrap32 l)))
    | _, _ => Raise (UnimplementedError "Cast is not supported")
    end.

(** ** Schemas and examples *)

(** [tf.io.FixedLenFeature(shape, dtype, default_value=None)] *)
Record FixedLenFeature := mkFixedLenFeature {
  fl_shape : list Z;
  fl_dtype : DType;
  fl_default_value : option Values
}.

(** The two-argument call of the source leaves [default_value] at [None]. *)
Definition tf_io_FixedLenFeature (sh : list Z) (dt : DType) : FixedLenFeature :=
  mkFixedLenFeature sh dt None.

(** [name_to_features]: a Python dict from field names to feature
    declarations; a decoded example: a dict from field names to tensors. *)
Abbreviation Schema := (gmap string FixedLenFeature).
Abbreviation Example := (gmap string Tensor).

(** [d[name]] on a Python dict. *)
Definition getitem {A} (d : gmap string A) (name : string) : Result A :=
  match d !! name with
  | Some v => Ok v
  | None => Raise (KeyError name)
  end.

(** ** Description of a [tf.data] pipeline *)

(** [input_file]: one path, or a list of paths. *)
Inductive InputFile :=
| Path (p : string)
| Paths (ps : list string).

(** [tf.data.Options()]; the only option the source touches is
    [experimental_distribute.auto_shard].  [None] is the library's default
    (the library then decides). *)
Record Options := mkOptions { experimental_distribute_auto_shard : option bool }.

Definition tf_data_Options : Options := mkOptions None.

Definition set_auto_shard (b : bool) (o : Options) : Options :=
  mkOptions (Some b).

(** [Options.merge]: what the later call sets overrides. *)
Definition merge_options (old new : Options) : Options :=
  mkOptions
    (match experimental_distribute_auto_shard new with
     | Some b => Some b
     | None => experimental_distribute_auto_shard old
     end).

(** The absl flags the module reads. *)
Record Flags := mkFlags { custom_training_loop : bool }.

(** ** A reference behaviour of the library's parser

    [tf.io.parse_single_example] belongs to TensorFlow, not to the
    repository, and the pipeline below takes it as a variable.  The parser of
    this section follows the library's documented behaviour on fixed-length
    features and serves to run the pipeline on concrete records.  A
    serialized record is represented by the [tf.train.Example] message it
    encodes: a map from feature names to value lists. *)

Inductive Feature :=
| bytes_list (value : list string)
| float_list (value : list Z)
| int64_list (value : list Z).

Abbreviation TFExample := (gmap string Feature).

Definition feature_values (f : Feature) : Values :=
  match f with
  | bytes_list l => Strings l
  | float_list l => Float32s l
  | int64_list l => Int64s l
  end.

Definition values_length (v : Values) : Z :=
  match v with
  | Float32s l | Int32s l | Int64s l => Z.of_nat (length l)
  | Strings l => Z.of_nat (length l)
  end.

Definition num_elements (sh : list Z) : Z := fold_right Z.mul 1 sh.

Definition parse_feature (name : string) (spec : FixedLenFeature)
    (f : option Feature) : Result Tensor :=
  match f with
  | None =>
      match fl_default_value spec with
      | Some v => Ok (mkTensor (fl_shape spec) v)
      | None =>
          Raise (InvalidArgumentError
                   ("Feature: " +:+ name +:+ " is required but could not be found."))
      end
  | Some f =>
      let t := mkTensor (fl_shape spec) (feature_values f) in
      if negb (DType_eqb (dtype t) (fl_dtype spec)) then
        Raise (InvalidArgumentError
                 ("Key: " +:+ name +:+ ". Data types don't match."))
      else if negb (Z.eqb (values_length (values t)) (num_elements (fl_shape spec))) then
        Raise (InvalidArgumentError
                 ("Key: " +:+ name +:+ ". Number of values != expected."))
      else Ok t
  end.

Definition parse_single_example_ref (record : TFExample) (name_to_features : Schema)
    : Result Example :=
  map_fold
    (fun name spec acc =>
       example ← acc;
       t ← parse_feature name spec (record !! name);
       Ok (<[name := t]> example))
    (Ok ∅) name_to_features.

(** Sample records and library behaviours, for running the pipeline. *)

Definition sample_classifier_record : TFExample :=
  <["is_real_example" := int64_list [1]]>
  (<["label_ids" := int64_list [4294967297]]>
  (<["segment_ids" := int64_list [0; 1]]>
  (<["input_mask" := int64_list [1; 1]]>
  (<["input_ids" := int64_list [101; 102]]> ∅)))).

(** What the library parses [sample_classifier_record] to, for sequences of
    length 2. *)
Definition sample_classifier_parsed : Example :=
  <["is_real_example" := mkTensor [] (Int64s [1])]>
  (<["label_ids" := mkTensor [] (Int64s [4294967297])]>
  (<["segment_ids" := mkTensor [2] (Int64s [0; 1])]>
  (<["input_mask" := mkTensor [2] (Int64s [1; 1])]>
  (<["input_ids" := mkTensor [2] (Int64s [101; 102])]> ∅)))).

Definition sample_squad_record (unique_id : Z) : TFExample :=
  <["segment_ids" := int64_list [0; 1]]>
  (<["input_mask" := int64_list [1; 1]]>
  (<["input_ids" := int64_list [101; 102]]>
  (<["unique_ids" := int64_list [unique_id]]> ∅))).

Definition sample_squad_training_record (unique_id : Z) : TFExample :=
  <["end_positions" := int64_list [1]]>
  (<["start_positions" := int64_list [0]]> (sample_squad_record unique_id)).

Definition sample_training_files (input_file : InputFile) : list TFExample :=
  [sample_squad_training_record 1000; sample_squad_training_record 1001;
   sample_squad_training_record 1002].

Definition sample_files (input_file : InputFile) : list TFExample :=
  [sample_squad_record 1000; sample_squad_record 1001; sample_squad_record 1002].

Definition sample_broken_files (input_file : InputFile) : list TFExample :=
  [sample_squad_record 1000; sample_classifier_record; sample_squad_record 1002].

Definition keep_order (T : Type) (pass : nat) (buffer_size : Z) (l : list T)
    : list T := l.

Definition reverse_order (T : Type) (pass : nat) (buffer_size : Z) (l : list T)
    : list T := rev l.

(** More sample records: a v2 record, whose masks are floats (here the bit
    patterns of 1.0 and 0.0), decoded training records, and files that hold
    classifier records or, under the path [dev_v2.tf_record], v2 records. *)

Definition sample_squad_v2_record (unique_id : Z) : TFExample :=
  <["p_mask" := float_list [0; 1065353216]]>
  (<["segment_ids" := int64_list [0; 1]]>
  (<["input_mask" := float_list [1065353216; 1065353216]]>
  (<["input_ids" := int64_list [101; 102]]>
  (<["unique_ids" := int64_list [unique_id]]> ∅)))).

Definition sample_squad_v2_training_record : TFExample :=
  <["is_impossible" := float_list [0]]>
  (<["end_positions" := int64_list [1]]>
  (<["start_positions" := int64_list [0]]> (sample_squad_v2_record 2000))).

Definition sample_squad_training_decoded : Example :=
  <["end_positions" := mkTensor [] (Int32s [1])]>
  (<["start_positions" := mkTensor [] (Int32s [0])]>
  (<["segment_ids" := mkTensor [2] (Int32s [0; 1])]>
  (<["input_mask" := mkTensor [2] (Int32s [1; 1])]>
  (<["input_ids" := mkTensor [2] (Int32s [101; 102])]>
  (<["unique_ids" := mkTensor [] (Int32s [1000])]> ∅))))).

Definition sample_squad_v2_training_decoded : Example :=
  <["is_impossible" := mkTensor [] (Float32s [0])]>
  (<["p_mask" := mkTensor [2] (Float32s [0; 1065353216])]>
  (<["input_mask" := mkTensor [2] (Float32s [1065353216; 1065353216])]>
     sample_squad_training_decoded)).

Definition sample_classifier_files (input_file : InputFile) : list TFExample :=
  [sample_classifier_record; sample_classifier_record; sample_classifier_record].

Definition sample_eval_files (input_file : InputFile) : list TFExample :=
  match input_file with
  | Path "dev_v2.tf_record" =>
      [sample_squad_v2_record 2000; sample_squad_v2_record 2001;
       sample_squad_v2_record 2002]
  | _ => sample_files input_file
  end.

(** ** Traces: what iterating a dataset produces *)

(** The elements yielded, in order, and the exception that ended the
    iteration, if one did. *)
Abbreviation Trace A := (list A * option Error)%type.

(** [Dataset.map]: the function is applied element by element; the first
    exception it raises ends the iteration. *)
Fixpoint map_until {A B} (f : A -> Result B) (xs : list A) : Trace B :=
  match xs with
  | [] => ([], None)
  | x :: xs' =>
      match f x with
      | Ok y => let '(ys, e) := map_until f xs' in (y :: ys, e)
      | Raise e => ([], Some e)
      end
  end.

Definition trace_map {A B} (f : A -> Result B) (t : Trace A) : Trace B :=
  let '(ys, e) := map_until f (fst t) in
  (ys, match e with Some e' => Some e' | None => snd t end).

(** [Dataset.batch]: elements are collected into [cur] until it holds [n] of
    them.  Returns the full batches and the elements left over. *)
Fixpoint batch_go {A} (n : nat) (cur : list A) (xs : list A)
    : list (list A) * list A :=
  match xs with
  | [] => ([], cur)
  | x :: xs' =>
      let cur' := cur ++ [x] in
      if Nat.eqb (length cur') n then
        let '(bs, rest) := batch_go n [] xs' in (cur' :: bs, rest)
      else batch_go n cur' xs'
  end.

Definition trace_batch {A} (batch_size : Z) (drop_remainder : bool)
    (t : Trace A) : Trace (list A) :=
  if batch_size <=? 0 then
    ([], Some (InvalidArgumentError "Batch size must be greater than zero."))
  else
    let '(bs, rest) := batch_go (Z.to_nat batch_size) [] (fst t) in
    match snd t with
    | Some e => (bs, Some e)
    | None =>
        match rest with
        | [] => (bs, None)
        | _ :: _ => (if drop_remainder then bs else bs ++ [rest], None)
        end
    end.

(** [Dataset.repeat] runs its input again and again; an exception ends the
    whole iteration. *)
Fixpoint trace_concat {A} (ts : list (Trace A)) : Trace A :=
  match ts with
  | [] => ([], None)
  | (xs, Some e) :: _ => (xs, Some e)
  | (xs, None) :: ts' => let '(ys, e) := trace_concat ts' in (xs ++ ys, e)
  end.

(** The stages of a pipeline, in the order the calls were made. *)
Inductive Stage :=
| StTFRecordDataset (input_file : InputFile)
| StMap
| StWithOptions (options : Options)
| StShuffle (buffer_size : Z) (reshuffle_each_iteration : bool)
| StRepeat
| StBatch (batch_size : Z) (drop_remainder : bool)
| StPrefetch (buffer_size : Z).

Definition is_shuffle (s : Stage) : bool :=
  match s with StShuffle _ _ => true | _ => false end.

Definition is_repeat (s : Stage) : bool :=
  match s with StRepeat => true | _ => false end.

Definition is_with_options (s : Stage) : bool :=
  match s with StWithOptions _ => true | _ => false end.

Definition is_batch_or_prefetch (s : Stage) : bool :=
  match s with StBatch _ _ | StPrefetch _ => true | _ => false end.

(** The options in force after all [with_options] calls. *)
Definition stage_options (o : Options) (s : Stage) : Options :=
  match s with
  | StWithOptions o' => merge_options o o'
  | _ => o
  end.

(** [name in ('start_positions', 'end_positions')] and the like. *)
Definition name_in (name : string) (names : list string) : bool :=
  bool_decide (name ∈ names).

(** The loop of the two SQuAD [_select_data_from_record] functions, for a
    given tuple of label names. *)
Definition select_step (labels : list string) (name : string) (tensor : Tensor)
    (xy : Example * Example) : Example * Example :=
  let '(x, y) := xy in
  if name_in name labels then (x, <[name := tensor]> y)
  else (<[name := tensor]> x, y).

(** Equalities and disjointness of closed sets of names are decided by
    computation. *)
Ltac gset_decide := apply (bool_decide_unpack _); vm_compute; exact I.

(** ** The pipeline of [input_pipeline.py] *)

Section Pipeline.

(** Serialized records and the library's [tf.io.parse_single_example]. *)
Variable Serialized : Type.
Variable parse_single_example : Serialized -> Schema -> Result Example.

(** *** [decode_record] *)

(** One iteration of the loop of [decode_record]. *)
Definition decode_step (name : string) (example : Example) : Result Example :=
  t ← getitem example name;
  t ← (if DType_eqb (dtype t) DT_INT64 then tf_cast t DT_INT32 else Ok t);
  Ok (<[name := t]> example).

(** The loop runs over [list(example.keys())], the keys the example had
    before the loop, and reads and writes the example as it then is. *)
Definition decode_record (record : Serialized) (name_to_features : Schema)
    : Result Example :=
  example ← parse_single_example record name_to_features;
  map_fold (fun name _ acc => example' ← acc; decode_step name example')
           (Ok example) example.

(** *** Datasets *)

(** A dataset is the description of the calls that built it; the element
    type follows the calls.  A batch is kept as the list of its elements. *)
Inductive Dataset : Type -> Type :=
| TFRecordDataset (input_file : InputFile) : Dataset Serialized
| ds_map {A B} (d : Dataset A) (f : A -> Result B) : Dataset B
| ds_with_options {A} (d : Dataset A) (options : Options) : Dataset A
| ds_shuffle {A} (d : Dataset A) (buffer_size : Z)
    (reshuffle_each_iteration : bool) : Dataset A
| ds_repeat {A} (d : Dataset A) : Dataset A
| ds_batch {A} (d : Dataset A) (batch_size : Z) (drop_remainder : bool)
    : Dataset (list A)
| ds_prefetch {A} (d : Dataset A) (buffer_size : Z) : Dataset A.

Fixpoint stages {A} (d : Dataset A) : list Stage :=
  match d with
  | TFRecordDataset f => [StTFRecordDataset f]
  | ds_map d' _ => stages d' ++ [StMap]
  | ds_with_options d' o => stages d' ++ [StWithOptions o]
  | ds_shuffle d' n r => stages d' ++ [StShuffle n r]
  | ds_repeat d' => stages d' ++ [StRepeat]
  | ds_batch d' n r => stages d' ++ [StBatch n r]
  | ds_prefetch d' n => stages d' ++ [StPrefetch n]
  end.

Definition has_shuffle {A} (d : Dataset A) : bool := existsb is_shuffle (stages d).
Definition has_repeat {A} (d : Dataset A) : bool := existsb is_repeat (stages d).

Definition options_calls {A} (d : Dataset A) : list Stage :=
  filter (fun s => is_with_options s = true) (stages d).

Definition dataset_options {A} (d : Dataset A) : Options :=
  fold_left stage_options (stages d) tf_data_Options.

Definition batch_prefetch_policy {A} (d : Dataset A) : list Stage :=
  filter (fun s => is_batch_or_prefetch s = true) (stages d).

(** *** [file_based_input_fn_builder] *)

(** [isinstance(input_file, str) or len(input_file) == 1] *)
Definition single_input_file (input_file : InputFile) : bool :=
  match input_file with
  | Path _ => true
  | Paths ps => Nat.eqb (length ps) 1
  end.

Definition input_fn (input_file : InputFile) (name_to_features : Schema)
    : Dataset Example :=
  let d := TFRecordDataset input_file in
  let d := ds_map d (fun record => decode_record record name_to_features) in
  if single_input_file input_file then
    let options := tf_data_Options in
    let options := set_auto_shard false options in
    ds_with_options d options
  else d.

(** The builder returns the closure [input_fn]. *)
Definition file_based_input_fn_builder (input_file : InputFile)
    (name_to_features : Schema) : unit -> Dataset Example :=
  fun _ => input_fn input_file name_to_features.

(** *** [create_classifier_dataset] *)

Definition classifier_name_to_features (seq_length : Z) : Schema :=
  <["is_real_example" := tf_io_FixedLenFeature [] DT_INT64]>
  (<["label_ids" := tf_io_FixedLenFeature [] DT_INT64]>
  (<["segment_ids" := tf_io_FixedLenFeature [seq_length] DT_INT64]>
  (<["input_mask" := tf_io_FixedLenFeature [seq_length] DT_INT64]>
  (<["input_ids" := tf_io_FixedLenFeature [seq_length] DT_INT64]> ∅)))).

Definition classifier_select_data_from_record (record : Example)
    : Result (Example * Tensor) :=
  input_word_ids ← getitem record "input_ids";
  input_mask ← getitem record "input_mask";
  input_type_ids ← getitem record "segment_ids";
  let x : Example :=
    <["input_type_ids" := input_type_ids]>
    (<["input_mask" := input_mask]>
    (<["input_word_ids" := input_word_ids]> ∅)) in
  y ← getitem record "label_ids";
  Ok (x, y).

Definition create_classifier_dataset (FLAGS : Flags) (file_path : InputFile)
    (seq_length batch_size : Z) (is_training drop_remainder : bool)
    : Dataset (list (Example * Tensor)) :=
  let name_to_features := classifier_name_to_features seq_length in
  let dataset := file_based_input_fn_builder file_path name_to_features tt in
  let dataset := ds_map dataset classifier_select_data_from_record in
  let dataset :=
    if is_training then
      let dataset := ds_shuffle dataset 1024 true in
      if custom_training_loop FLAGS then ds_repeat dataset else dataset
    else dataset in
  let dataset := ds_batch dataset batch_size drop_remainder in
  let dataset := ds_prefetch dataset 1024 in
  dataset.

(** *** [create_squad_dataset] *)

Definition squad_name_to_features (seq_length : Z) (is_training : bool) : Schema :=
  let name_to_features : Schema :=
    <["segment_ids" := tf_io_FixedLenFeature [seq_length] DT_INT64]>
    (<["input_mask" := tf_io_FixedLenFeature [seq_length] DT_INT64]>
    (<["input_ids" := tf_io_FixedLenFeature [seq_length] DT_INT64]>
    (<["unique_ids" := tf_io_FixedLenFeature [] DT_INT64]> ∅))) in
  if is_training then
    let name_to_features :=
      <["start_positions" := tf_io_FixedLenFeature [] DT_INT64]> name_to_features in
    <["end_positions" := tf_io_FixedLenFeature [] DT_INT64]> name_to_features
  else name_to_features.

Definition squad_labels : list string := ["start_positions"; "end_positions"].

Definition squad_select_data_from_record (record : Example) : Example * Example :=
  map_fold (select_step squad_labels) (∅, ∅) record.

Definition create_squad_dataset (FLAGS : Flags) (file_path : InputFile)
    (seq_length batch_size : Z) (is_training : bool)
    : Dataset (list (Example * Example)) :=
  let name_to_features := squad_name_to_features seq_length is_training in
  let dataset := file_based_input_fn_builder file_path name_to_features tt in
  let dataset :=
    ds_map dataset (fun record => Ok (squad_select_data_from_record record)) in
  let dataset :=
    if is_training then
      let dataset := ds_shuffle dataset 100 true in
      if custom_training_loop FLAGS then ds_repeat dataset else dataset
    else dataset in
  let dataset := ds_batch dataset batch_size false in
  let dataset := ds_prefetch dataset 1024 in
  dataset.

(** *** [create_squad_dataset_v2] *)

Definition squad_v2_name_to_features (seq_length : Z) (is_training : bool)
    : Schema :=
  let name_to_features : Schema :=
    <["p_mask" := tf_io_FixedLenFeature [seq_length] DT_FLOAT]>
    (<["segment_ids" := tf_io_FixedLenFeature [seq_length] DT_INT64]>
    (<["input_mask" := tf_io_FixedLenFeature [seq_length] DT_FLOAT]>
    (<["input_ids" := tf_io_FixedLenFeature [seq_length] DT_INT64]>
    (<["unique_ids" := tf_io_FixedLenFeature [] DT_INT64]> ∅)))) in
  if is_training then
    let name_to_features :=
      <["start_positions" := tf_io_FixedLenFeature [] DT_INT64]> name_to_features in
    let name_to_features :=
      <["end_positions" := tf_io_FixedLenFeature [] DT_INT64]> name_to_features in
    <["is_impossible" := tf_io_FixedLenFeature [] DT_FLOAT]> name_to_features
  else name_to_features.

Definition squad_v2_labels : list string :=
  ["start_positions"; "end_positions"; "is_impossible"].

Definition squad_v2_select_data_from_record (record : Example)
    : Example * Example :=
  map_fold (select_step squad_v2_labels) (∅, ∅) record.

Definition create_squad_dataset_v2 (FLAGS : Flags) (file_path : InputFile)
    (seq_length batch_size : Z) (is_training : bool)
    : Dataset (list (Example * Example)) :=
  let name_to_features := squad_v2_name_to_features seq_length is_training in
  let dataset := file_based_input_fn_builder file_path name_to_features tt in
  let dataset :=
    ds_map dataset (fun record => Ok (squad_v2_select_data_from_record record)) in
  let dataset :=
    if is_training then
      let dataset := ds_shuffle dataset 100 true in
      if custom_training_loop FLAGS then ds_repeat dataset else dataset
    else dataset in
  let dataset := ds_batch dataset batch_size false in
  let dataset := ds_prefetch dataset 1024 in
  dataset.

(** *** Iterating a dataset *)

(** [files] gives the records stored in the input files, in reading order.
    [order] is the order a shuffle stage chooses in a given pass over its
    input, for a given buffer size: it is the library's random choice and
    nothing is assumed about it.  An endless [repeat] is observed for
    [passes] passes. *)
Fixpoint run {A} (files : InputFile -> list Serialized)
    (order : forall T : Type, nat -> Z -> list T -> list T)
    (passes : nat) (d : Dataset A) (pass : nat) : Trace A :=
  match d in Dataset T return Trace T with
  | TFRecordDataset f => (files f, None)
  | ds_map d' f => trace_map f (run files order passes d' pass)
  | ds_with_options d' _ => run files order passes d' pass
  | ds_shuffle d' n reshuffle =>
      let t := run files order passes d' pass in
      (order _ (if reshuffle then pass else 0%nat) n (fst t), snd t)
  | ds_repeat d' =>
      trace_concat (map (fun k => run files order passes d' k) (seq 0 passes))
  | ds_batch d' n r => trace_batch n r (run files order passes d' pass)
  | ds_prefetch d' _ => run files order passes d' pass
  end.


(** *** Reference definitions the statements below compare the code with *)

(** What the specification asks of [decode_record] for one field: an int64
    tensor becomes the int32 tensor of the truncated elements, any other
    tensor is kept. *)
Definition int64_to_int32 (t : Tensor) : Tensor :=
  match values t with
  | Int64s l => mkTensor (shape t) (Int32s (map wrap32 l))
  | _ => t
  end.

(** The shape the specification expects of a declared field: [[seq_length]]
    for the per-token fields, [[]] for the per-example fields. *)
Definition sequence_fields : list string :=
  ["input_ids"; "input_mask"; "segment_ids"; "p_mask"].

Definition scalar_fields : list string :=
  ["label_ids"; "is_real_example"; "unique_ids";
   "start_positions"; "end_positions"; "is_impossible"].

Definition expected_shape (seq_length : Z) (name : string) : option (list Z) :=
  if name_in name sequence_fields then Some [seq_length]
  else if name_in name scalar_fields then Some []
  else None.

(** A record on which the library's parser succeeds / raises. *)
Definition parses (name_to_features : Schema) (record : Serialized) : Prop :=
  exists example, parse_single_example record name_to_features = Ok example.

(** The values an int32 holds. *)
Definition int32_range (z : Z) : Prop := - 2 ^ 31 <= z < 2 ^ 31.

(** The subscripts the classifier selector makes on the record, in order. *)
Definition classifier_subscripts : list string :=
  ["input_ids"; "input_mask"; "segment_ids"; "label_ids"].

(** The part of the parser's documented behaviour that concerns element
    types: the tensor it returns for a field has the declared element
    type. *)
Definition returns_declared_dtypes (name_to_features : Schema) : Prop :=
  forall record example name t,
    parse_single_example record name_to_features = Ok example ->
    example !! name = Some t ->
    exists feature,
      name_to_features !! name = Some feature /\ dtype t = fl_dtype feature.

(** ** Properties of [decode_record] *)

Lemma cast_branch_int64_to_int32 (t : Tensor) :
  (if DType_eqb (dtype t) DT_INT64 then tf_cast t DT_INT32 else Ok t)
  = Ok (int64_to_int32 t).
Proof.
  destruct t as [sh v]. unfold tf_cast, int64_to_int32, dtype. simpl.
  destruct v; reflexivity.
Qed.

Lemma int64_to_int32_dtype (t : Tensor) : dtype (int64_to_int32 t) ≠ DT_INT64.
Proof. destruct t as [sh v]. destruct v; discriminate. Qed.

Lemma decode_step_present (name : string) (example : Example) (t : Tensor) :
  example !! name = Some t ->
  decode_step name example = Ok (<[name := int64_to_int32 t]> example).
Proof.
  intros Hname. unfold decode_step, getitem. rewrite Hname. simpl.
  rewrite cast_branch_int64_to_int32. reflexivity.
Qed.

(** The loop of [decode_record], started on any dict that holds the fields
    it runs over: it never raises, and it rewrites exactly those fields. *)
Lemma decode_loop (keys example : Example) :
  keys ⊆ example ->
  map_fold (fun name _ acc => example' ← acc; decode_step name example')
           (Ok example) keys
  = Ok ((int64_to_int32 <$> keys) ∪ example).
Proof.
  revert keys.
  apply (map_fold_weak_ind (fun r keys =>
           keys ⊆ example -> r = Ok ((int64_to_int32 <$> keys) ∪ example))).
  - intros _. rewrite fmap_empty. rewrite (left_id_L ∅ (∪)). reflexivity.
  - intros name t keys r Hfresh IH Hsub.
    assert (Hkeys : keys ⊆ example).
    { etrans; [apply (insert_subseteq keys name t Hfresh) | exact Hsub]. }
    rewrite (IH Hkeys). simpl.
    assert (Hin : example !! name = Some t).
    { eapply lookup_weaken; [apply lookup_insert_eq | exact Hsub]. }
    rewrite (decode_step_present name _ t).
    + rewrite fmap_insert. rewrite insert_union_l. reflexivity.
    + rewrite lookup_union_r; [exact Hin |].
      rewrite lookup_fmap, Hfresh. reflexivity.
Qed.

Lemma fmap_union_self (example : Example) :
  (int64_to_int32 <$> example) ∪ example = int64_to_int32 <$> example.
Proof.
  apply map_eq. intros name. rewrite lookup_union, lookup_fmap.
  destruct (example !! name); reflexivity.
Qed.

Lemma decode_record_eq (record : Serialized) (name_to_features : Schema) :
  decode_record record name_to_features
  = (example ← parse_single_example record name_to_features;
     Ok (int64_to_int32 <$> (example : Example))).
Proof.
  unfold decode_record.
  destruct (parse_single_example record name_to_features) as [example | e];
    simpl; [| reflexivity].
  rewrite decode_loop by reflexivity. rewrite fmap_union_self. reflexivity.
Qed.

(** C1: when the library parses a record, [decode_record] returns an
    example with the parsed fields, in which every int64 field is replaced
    by the int32 tensor of the same shape holding its elements cast to
    int32, every other field is unchanged, and no field is int64. *)
Theorem decode_record_casts_int64
    (record : Serialized) (name_to_features : Schema) (parsed : Example) :
  parse_single_example record name_to_features = Ok parsed ->
  exists example : Example,
    decode_record record name_to_features = Ok example /\
    dom example = dom parsed /\
    (forall name t l,
       parsed !! name = Some t -> values t = Int64s l ->
       example !! name = Some (mkTensor (shape t) (Int32s (map wrap32 l)))) /\
    (forall name t,
       parsed !! name = Some t -> dtype t ≠ DT_INT64 ->
       example !! name = Some t) /\
    (forall name t, example !! name = Some t -> dtype t ≠ DT_INT64).
Proof.
  intros Hparse. exists (int64_to_int32 <$> parsed).
  split; [| split; [| split; [| split]]].
  - rewrite decode_record_eq, Hparse. reflexivity.
  - apply dom_fmap_L.
  - intros name t l Hname Hvalues.
    rewrite lookup_fmap, Hname. simpl. unfold int64_to_int32.
    rewrite Hvalues. reflexivity.
  - intros name t Hname Hdtype.
    rewrite lookup_fmap, Hname. simpl. f_equal.
    destruct t as [sh v]. destruct v; try reflexivity.
    exfalso. apply Hdtype. reflexivity.
  - intros name t Hname. rewrite lookup_fmap in Hname.
    destruct (parsed !! name) as [t0 |]; simpl in Hname; [| discriminate].
    injection Hname as <-. apply int64_to_int32_dtype.
Qed.


(** ** Properties of the [_select_data_from_record] functions *)

(** The loop of the SQuAD selectors sends every field of the record to
    exactly one of the two dicts, by its name. *)
Lemma select_loop_lookup (labels : list string) (record : Example) (name : string) :
  (map_fold (select_step labels) (∅, ∅) record).1 !! name
  = (if name_in name labels then None else record !! name) /\
  (map_fold (select_step labels) (∅, ∅) record).2 !! name
  = (if name_in name labels then record !! name else None).
Proof.
  revert name.
  apply (map_fold_weak_ind (fun (xy : Example * Example) (m : Example) =>
           forall name,
             xy.1 !! name = (if name_in name labels then None else m !! name) /\
             xy.2 !! name = (if name_in name labels then m !! name else None))).
  - intros name. simpl. rewrite !lookup_empty. destruct (name_in name labels); auto.
  - intros i t m [x y] Hfresh IH name. unfold select_step.
    destruct (IH name) as [IHx IHy]. simpl in IHx, IHy.
    destruct (name_in i labels) eqn:Hi; simpl.
    + destruct (decide (i = name)) as [-> | Hne].
      * rewrite Hi, !lookup_insert_eq. rewrite IHx, Hi. auto.
      * rewrite !lookup_insert_ne by exact Hne. auto.
    + destruct (decide (i = name)) as [-> | Hne].
      * rewrite Hi, !lookup_insert_eq. rewrite IHy, Hi. auto.
      * rewrite !lookup_insert_ne by exact Hne. auto.
Qed.

Lemma select_loop_partition (labels : list string) (record : Example) :
  let xy := map_fold (select_step labels) (∅, ∅) record in
  (forall name, xy.2 !! name = if name_in name labels then record !! name else None) /\
  (forall name, xy.1 !! name = if name_in name labels then None else record !! name) /\
  xy.1 ##ₘ xy.2 /\
  xy.1 ∪ xy.2 = record.
Proof.
  intros xy. subst xy.
  split; [| split; [| split]].
  - intros name. apply select_loop_lookup.
  - intros name. apply select_loop_lookup.
  - apply map_disjoint_spec. intros name t1 t2 H1 H2.
    destruct (select_loop_lookup labels record name) as [Hx Hy].
    rewrite Hx in H1. rewrite Hy in H2.
    destruct (name_in name labels); discriminate.
  - apply map_eq. intros name. rewrite lookup_union.
    destruct (select_loop_lookup labels record name) as [-> ->].
    destruct (name_in name labels); destruct (record !! name); reflexivity.
Qed.

(** C2: the selectors of [create_squad_dataset] and
    [create_squad_dataset_v2] partition the fields of every record: [y] holds
    exactly the fields named [start_positions] or [end_positions] (and
    [is_impossible] in the v2 variant), [x] holds every other field, each
    with the value it has in the record; no field is in both, and together
    they are the record. *)
Theorem squad_select_partitions (record : Example) :
  (let '(x, y) := squad_select_data_from_record record in
   (forall name,
      y !! name = if name_in name ["start_positions"; "end_positions"]
                  then record !! name else None) /\
   (forall name,
      x !! name = if name_in name ["start_positions"; "end_positions"]
                  then None else record !! name) /\
   x ##ₘ y /\ x ∪ y = record) /\
  (let '(x, y) := squad_v2_select_data_from_record record in
   (forall name,
      y !! name = if name_in name ["start_positions"; "end_positions"; "is_impossible"]
                  then record !! name else None) /\
   (forall name,
      x !! name = if name_in name ["start_positions"; "end_positions"; "is_impossible"]
                  then None else record !! name) /\
   x ##ₘ y /\ x ∪ y = record).
Proof.
  split.
  - pose proof (select_loop_partition squad_labels record) as H.
    unfold squad_select_data_from_record.
    destruct (map_fold (select_step squad_labels) (∅, ∅) record) as [x y].
    exact H.
  - pose proof (select_loop_partition squad_v2_labels record) as H.
    unfold squad_v2_select_data_from_record.
    destruct (map_fold (select_step squad_v2_labels) (∅, ∅) record) as [x y].
    exact H.
Qed.

Lemma classifier_schema_dom (seq_length : Z) :
  dom (classifier_name_to_features seq_length)
  = ({["input_ids"; "input_mask"; "segment_ids"; "label_ids"; "is_real_example"]}
     : gset string).
Proof.
  unfold classifier_name_to_features. rewrite !dom_insert_L, dom_empty_L.
  gset_decide.
Qed.

Ltac in_gset := rewrite ?elem_of_union, ?elem_of_singleton; auto 10.

(** C8: on a record that has the fields of the classifier schema, the
    selector of [create_classifier_dataset] returns [(x, y)] where [x] has
    exactly the keys [input_word_ids], [input_mask] and [input_type_ids],
    holding the record's [input_ids], [input_mask] and [segment_ids]; [y] is
    the record's [label_ids]; [is_real_example], though present in the
    record, is not a key of [x] and its value has no influence on [(x, y)]. *)
Theorem classifier_select_spec (seq_length : Z) (record : Example) :
  dom record = dom (classifier_name_to_features seq_length) ->
  exists (x : Example) (y : Tensor),
    classifier_select_data_from_record record = Ok (x, y) /\
    dom x = ({["input_word_ids"; "input_mask"; "input_type_ids"]} : gset string) /\
    x !! "input_word_ids" = record !! "input_ids" /\
    x !! "input_mask" = record !! "input_mask" /\
    x !! "input_type_ids" = record !! "segment_ids" /\
    record !! "label_ids" = Some y /\
    is_Some (record !! "is_real_example") /\
    x !! "is_real_example" = None /\
    (forall t, classifier_select_data_from_record (<["is_real_example" := t]> record)
               = Ok (x, y)) /\
    classifier_select_data_from_record (delete "is_real_example" record) = Ok (x, y).
Proof.
  intros Hdom. rewrite classifier_schema_dom in Hdom.
  assert (Ha : is_Some (record !! "input_ids")).
  { apply elem_of_dom. rewrite Hdom. in_gset. }
  assert (Hb : is_Some (record !! "input_mask")).
  { apply elem_of_dom. rewrite Hdom. in_gset. }
  assert (Hc : is_Some (record !! "segment_ids")).
  { apply elem_of_dom. rewrite Hdom. in_gset. }
  assert (Hl : is_Some (record !! "label_ids")).
  { apply elem_of_dom. rewrite Hdom. in_gset. }
  assert (Hr : is_Some (record !! "is_real_example")).
  { apply elem_of_dom. rewrite Hdom. in_gset. }
  destruct Ha as [a Ha], Hb as [b Hb], Hc as [c Hc], Hl as [l Hl].
  exists (<["input_type_ids" := c]>
            (<["input_mask" := b]> (<["input_word_ids" := a]> ∅))), l.
  assert (Hsel : forall r : Example,
             r !! "input_ids" = Some a -> r !! "input_mask" = Some b ->
             r !! "segment_ids" = Some c -> r !! "label_ids" = Some l ->
             classifier_select_data_from_record r
             = Ok (<["input_type_ids" := c]>
                     (<["input_mask" := b]> (<["input_word_ids" := a]> ∅)), l)).
  { intros r Hra Hrb Hrc Hrl. unfold classifier_select_data_from_record, getitem.
    rewrite Hra, Hrb, Hrc, Hrl. reflexivity. }
  split; [apply Hsel; assumption |].
  split; [rewrite !dom_insert_L, dom_empty_L; vm_compute; reflexivity |].
  split; [rewrite Ha; reflexivity |].
  split; [rewrite Hb; reflexivity |].
  split; [rewrite Hc; reflexivity |].
  split; [exact Hl |].
  split; [exact Hr |].
  split; [reflexivity |].
  split.
  - intros t. apply Hsel; rewrite lookup_insert_ne by discriminate; assumption.
  - apply Hsel; rewrite lookup_delete_ne by discriminate; assumption.
Qed.

(** ** Properties of the declared schemas *)

Ltac schema_cases H :=
  repeat (rewrite lookup_insert in H; case_decide;
          [subst; injection H as <-; split; reflexivity |]);
  rewrite lookup_empty in H; discriminate H.

(** C6: every field declared by one of the three constructors is a
    fixed-length feature without default value whose shape is [[seq_length]]
    for [input_ids], [input_mask], [segment_ids] and [p_mask], and [[]] for
    [label_ids], [is_real_example], [unique_ids], [start_positions],
    [end_positions] and [is_impossible], whatever [seq_length] is. *)
Theorem declared_shapes (seq_length : Z) (is_training : bool)
    (name : string) (feature : FixedLenFeature) :
  classifier_name_to_features seq_length !! name = Some feature \/
  squad_name_to_features seq_length is_training !! name = Some feature \/
  squad_v2_name_to_features seq_length is_training !! name = Some feature ->
  Some (fl_shape feature) = expected_shape seq_length name /\
  fl_default_value feature = None.
Proof.
  intros [H | [H | H]].
  - unfold classifier_name_to_features in H. schema_cases H.
  - unfold squad_name_to_features in H.
    destruct is_training; schema_cases H.
  - unfold squad_v2_name_to_features in H.
    destruct is_training; schema_cases H.
Qed.

(** ** Properties of the constructed pipelines *)

Lemma stages_input_fn (input_file : InputFile) (name_to_features : Schema) :
  stages (input_fn input_file name_to_features)
  = [StTFRecordDataset input_file; StMap]
    ++ (if single_input_file input_file
        then [StWithOptions (mkOptions (Some false))] else []).
Proof.
  unfold input_fn. destruct (single_input_file input_file); reflexivity.
Qed.

Lemma stages_create_classifier_dataset (FLAGS : Flags) (file_path : InputFile)
    (seq_length batch_size : Z) (is_training drop_remainder : bool) :
  stages (create_classifier_dataset FLAGS file_path seq_length batch_size
            is_training drop_remainder)
  = stages (input_fn file_path (classifier_name_to_features seq_length))
    ++ [StMap]
    ++ (if is_training then [StShuffle 1024 true] else [])
    ++ (if is_training && custom_training_loop FLAGS then [StRepeat] else [])
    ++ [StBatch batch_size drop_remainder; StPrefetch 1024].
Proof.
  unfold create_classifier_dataset, file_based_input_fn_builder.
  destruct is_training, (custom_training_loop FLAGS); simpl;
    rewrite <- ?app_assoc; reflexivity.
Qed.

Lemma stages_create_squad_dataset (FLAGS : Flags) (file_path : InputFile)
    (seq_length batch_size : Z) (is_training : bool) :
  stages (create_squad_dataset FLAGS file_path seq_length batch_size is_training)
  = stages (input_fn file_path (squad_name_to_features seq_length is_training))
    ++ [StMap]
    ++ (if is_training then [StShuffle 100 true] else [])
    ++ (if is_training && custom_training_loop FLAGS then [StRepeat] else [])
    ++ [StBatch batch_size false; StPrefetch 1024].
Proof.
  unfold create_squad_dataset, file_based_input_fn_builder.
  destruct is_training, (custom_training_loop FLAGS); simpl;
    rewrite <- ?app_assoc; reflexivity.
Qed.

Lemma stages_create_squad_dataset_v2 (FLAGS : Flags) (file_path : InputFile)
    (seq_length batch_size : Z) (is_training : bool) :
  stages (create_squad_dataset_v2 FLAGS file_path seq_length batch_size is_training)
  = stages (input_fn file_path (squad_v2_name_to_features seq_length is_training))
    ++ [StMap]
    ++ (if is_training then [StShuffle 100 true] else [])
    ++ (if is_training && custom_training_loop FLAGS then [StRepeat] else [])
    ++ [StBatch batch_size false; StPrefetch 1024].
Proof.
  unfold create_squad_dataset_v2, file_based_input_fn_builder.
  destruct is_training, (custom_training_loop FLAGS); simpl;
    rewrite <- ?app_assoc; reflexivity.
Qed.

Ltac stage_cases FLAGS file_path is_training :=
  rewrite ?stages_create_classifier_dataset, ?stages_create_squad_dataset,
    ?stages_create_squad_dataset_v2, ?stages_input_fn;
  destruct is_training, (custom_training_loop FLAGS),
    (single_input_file file_path); reflexivity.

(** C3: in each of the three constructors a shuffle stage is present exactly
    when [is_training] holds, and a repeat stage exactly when [is_training]
    holds and the [custom_training_loop] flag is set; in particular an
    evaluation pipeline has neither. *)
Theorem shuffle_and_repeat_policy (FLAGS : Flags) (file_path : InputFile)
    (seq_length batch_size : Z) (is_training drop_remainder : bool) :
  let classifier :=
    create_classifier_dataset FLAGS file_path seq_length batch_size
      is_training drop_remainder in
  let squad :=
    create_squad_dataset FLAGS file_path seq_length batch_size is_training in
  let squad_v2 :=
    create_squad_dataset_v2 FLAGS file_path seq_length batch_size is_training in
  has_shuffle classifier = is_training /\
  has_shuffle squad = is_training /\
  has_shuffle squad_v2 = is_training /\
  has_repeat classifier = is_training && custom_training_loop FLAGS /\
  has_repeat squad = is_training && custom_training_loop FLAGS /\
  has_repeat squad_v2 = is_training && custom_training_loop FLAGS.
Proof.
  intros classifier squad squad_v2. subst classifier squad squad_v2.
  unfold has_shuffle, has_repeat.
  repeat apply conj; stage_cases FLAGS file_path is_training.
Qed.

(** C5, as the code has it: [input_fn] calls [with_options] exactly when the
    input is a single path or a list holding one path, and then the one
    option it sets is [experimental_distribute.auto_shard = False]; for any
    other input it makes no [with_options] call and every option keeps its
    default. *)
Theorem input_fn_sharding_options (input_file : InputFile)
    (name_to_features : Schema) :
  let d := file_based_input_fn_builder input_file name_to_features tt in
  single_input_file input_file
  = match input_file with
    | Path _ => true
    | Paths ps => bool_decide (length ps = 1%nat)
    end /\
  options_calls d
  = (if single_input_file input_file
     then [StWithOptions (mkOptions (Some false))] else []) /\
  dataset_options d
  = (if single_input_file input_file
     then mkOptions (Some false) else tf_data_Options).
Proof.
  intros d. subst d. unfold file_based_input_fn_builder.
  split; [| split].
  - destruct input_file as [p | ps]; [reflexivity |]. simpl.
    destruct (Nat.eqb_spec (length ps) 1) as [Heq | Hne].
    + rewrite bool_decide_eq_true_2 by exact Heq. reflexivity.
    + rewrite bool_decide_eq_false_2 by exact Hne. reflexivity.
  - unfold options_calls. rewrite stages_input_fn.
    destruct (single_input_file input_file); reflexivity.
  - unfold dataset_options. rewrite stages_input_fn.
    destruct (single_input_file input_file); reflexivity.
Qed.

(** C7, as the code has it: batching and prefetching do not depend on
    [is_training].  Each constructor ends with one batch stage followed by
    one prefetch stage of buffer size 1024, and has no other batch or
    prefetch stage; [create_classifier_dataset] batches with its
    [drop_remainder] argument, the two SQuAD constructors with
    [drop_remainder=False]. *)
Theorem batch_prefetch_unconditional (FLAGS : Flags) (file_path : InputFile)
    (seq_length batch_size : Z) (is_training drop_remainder : bool) :
  batch_prefetch_policy
    (create_classifier_dataset FLAGS file_path seq_length batch_size
       is_training drop_remainder)
  = [StBatch batch_size drop_remainder; StPrefetch 1024] /\
  batch_prefetch_policy
    (create_squad_dataset FLAGS file_path seq_length batch_size is_training)
  = [StBatch batch_size false; StPrefetch 1024] /\
  batch_prefetch_policy
    (create_squad_dataset_v2 FLAGS file_path seq_length batch_size is_training)
  = [StBatch batch_size false; StPrefetch 1024].
Proof.
  unfold batch_prefetch_policy.
  repeat apply conj; stage_cases FLAGS file_path is_training.
Qed.

(** ** Properties of the iteration *)

Lemma map_until_raises {A B} (f : A -> Result B) (xs : list A) (e : Error) :
  snd (map_until f xs) = Some e <->
  exists before x after,
    xs = before ++ x :: after /\
    Forall (fun x' => exists y, f x' = Ok y) before /\
    f x = Raise e.
Proof.
  induction xs as [| x0 xs IH]; simpl.
  - split; [discriminate |].
    intros (before & x & after & Heq & _). destruct before; discriminate Heq.
  - destruct (f x0) as [y0 | e0] eqn:Hx0.
    + destruct (map_until f xs) as [ys e'] eqn:Hrest. simpl in *. split.
      * intros He. apply IH in He as (before & x & after & -> & Hall & Hx).
        exists (x0 :: before), x, after. repeat split; [| exact Hx].
        constructor; [eauto | exact Hall].
      * intros (before & x & after & Heq & Hall & Hx).
        destruct before as [| b before]; simpl in Heq; injection Heq as <- ->.
        -- rewrite Hx in Hx0. discriminate Hx0.
        -- apply IH. exists before, x, after. repeat split; [| exact Hx].
           inversion Hall; assumption.
    + simpl. split.
      * intros [= ->]. exists [], x0, xs. repeat split; [constructor | exact Hx0].
      * intros (before & x & after & Heq & Hall & Hx).
        destruct before as [| b before]; simpl in Heq; injection Heq as <- ->.
        -- rewrite Hx in Hx0. injection Hx0 as ->. reflexivity.
        -- inversion Hall as [| ? ? [y Hy] _]; subst.
           rewrite Hy in Hx0. discriminate Hx0.
Qed.

Lemma map_until_elem {A B} (f : A -> Result B) (xs : list A) (y : B) :
  y ∈ fst (map_until f xs) -> exists x, x ∈ xs /\ f x = Ok y.
Proof.
  induction xs as [| x0 xs IH]; simpl.
  - intros H. inversion H.
  - destruct (f x0) as [y0 | e0] eqn:Hx0.
    + destruct (map_until f xs) as [ys e']. simpl in *.
      intros [-> | Hin]%elem_of_cons.
      * exists x0. split; [left | exact Hx0].
      * destruct (IH Hin) as (x & Hx & Hfx). exists x. split; [right |]; assumption.
    + simpl. intros H. inversion H.
Qed.

Lemma trace_map_elem {A B} (f : A -> Result B) (t : Trace A) (y : B) :
  y ∈ fst (trace_map f t) -> exists x, x ∈ fst t /\ f x = Ok y.
Proof.
  unfold trace_map. pose proof (map_until_elem f (fst t) y) as H.
  destruct (map_until f (fst t)) as [ys e]. exact H.
Qed.

Lemma trace_map_raises {A B} (f : A -> Result B) (xs : list A) :
  snd (trace_map f (xs, None)) = snd (map_until f xs).
Proof.
  unfold trace_map. simpl. destruct (map_until f xs) as [ys [e |]]; reflexivity.
Qed.

Lemma batch_go_elem {A} (n : nat) (xs cur : list A) :
  (forall b x, b ∈ fst (batch_go n cur xs) -> x ∈ b -> x ∈ cur ++ xs) /\
  (forall x, x ∈ snd (batch_go n cur xs) -> x ∈ cur ++ xs).
Proof.
  revert cur. induction xs as [| x0 xs IH]; intros cur; simpl.
  - split.
    + intros b x Hb. inversion Hb.
    + intros x Hx. rewrite app_nil_r. exact Hx.
  - destruct (Nat.eqb (length (cur ++ [x0])) n).
    + destruct (IH []) as [IHb IHr].
      destruct (batch_go n [] xs) as [bs rest]. simpl in *. split.
      * intros b x [-> | Hb]%elem_of_cons Hx.
        -- rewrite (cons_middle x0 cur xs), app_assoc.
           apply elem_of_app. left. exact Hx.
        -- rewrite (cons_middle x0 cur xs), app_assoc.
           apply elem_of_app. right. eapply IHb; eassumption.
      * intros x Hx. rewrite (cons_middle x0 cur xs), app_assoc.
        apply elem_of_app. right. apply IHr. exact Hx.
    + destruct (IH (cur ++ [x0])) as [IHb IHr]. split.
      * intros b x Hb Hx. rewrite (cons_middle x0 cur xs), app_assoc.
        eapply IHb; eassumption.
      * intros x Hx. rewrite (cons_middle x0 cur xs), app_assoc.
        apply IHr. exact Hx.
Qed.

Lemma trace_batch_elem {A} (batch_size : Z) (drop_remainder : bool)
    (t : Trace A) (b : list A) (x : A) :
  b ∈ fst (trace_batch batch_size drop_remainder t) -> x ∈ b -> x ∈ fst t.
Proof.
  unfold trace_batch. destruct (batch_size <=? 0).
  - simpl. intros H. inversion H.
  - destruct (batch_go_elem (Z.to_nat batch_size) (fst t) []) as [Hb Hr].
    destruct (batch_go (Z.to_nat batch_size) [] (fst t)) as [bs rest].
    simpl in Hb, Hr.
    destruct (snd t) as [e |]; [intros Hin Hx; eapply Hb; eassumption |].
    destruct rest as [| r rest]; [intros Hin Hx; eapply Hb; eassumption |].
    destruct drop_remainder; [intros Hin Hx; eapply Hb; eassumption |].
    simpl. intros [Hin | Hin]%elem_of_app Hx; [eapply Hb; eassumption |].
    apply list_elem_of_singleton in Hin. subst b. apply Hr. exact Hx.
Qed.

Lemma run_input_fn (files : InputFile -> list Serialized)
    (order : forall T : Type, nat -> Z -> list T -> list T)
    (passes : nat) (input_file : InputFile) (name_to_features : Schema)
    (pass : nat) :
  run files order passes (input_fn input_file name_to_features) pass
  = trace_map (fun record => decode_record record name_to_features)
      (files input_file, None).
Proof.
  unfold input_fn. destruct (single_input_file input_file); reflexivity.
Qed.

Lemma decode_record_raises (record : Serialized) (name_to_features : Schema)
    (e : Error) :
  decode_record record name_to_features = Raise e <->
  parse_single_example record name_to_features = Raise e.
Proof.
  rewrite decode_record_eq.
  destruct (parse_single_example record name_to_features); simpl;
    split; congruence.
Qed.

Lemma decode_record_returns (record : Serialized) (name_to_features : Schema) :
  (exists example, decode_record record name_to_features = Ok example) <->
  parses name_to_features record.
Proof.
  unfold parses. rewrite decode_record_eq.
  destruct (parse_single_example record name_to_features) as [parsed | e]; simpl.
  - split; eauto.
  - split; intros [example H]; discriminate H.
Qed.

(** C4: [decode_record] raises exactly when the library's parser raises, and
    it raises the parser's exception; it catches nothing and puts no default
    in place of a field.  The dataset of [input_fn] raises exactly when some
    record of the input fails to parse, with the exception of the first such
    record, and ends normally exactly when every record parses. *)
Theorem parse_error_propagates
    (files : InputFile -> list Serialized)
    (order : forall T : Type, nat -> Z -> list T -> list T)
    (passes pass : nat) (input_file : InputFile) (name_to_features : Schema)
    (record : Serialized) (e : Error) :
  let trace :=
    run files order passes
      (file_based_input_fn_builder input_file name_to_features tt) pass in
  (decode_record record name_to_features = Raise e <->
   parse_single_example record name_to_features = Raise e) /\
  (snd trace = Some e <->
   exists before failing after,
     files input_file = before ++ failing :: after /\
     Forall (parses name_to_features) before /\
     parse_single_example failing name_to_features = Raise e) /\
  (snd trace = None <-> Forall (parses name_to_features) (files input_file)).
Proof.
  intros trace. subst trace. unfold file_based_input_fn_builder.
  rewrite run_input_fn, trace_map_raises.
  split; [apply decode_record_raises |].
  assert (Hraises : forall e',
    snd (map_until (fun r => decode_record r name_to_features) (files input_file))
    = Some e' <->
    exists before failing after,
      files input_file = before ++ failing :: after /\
      Forall (parses name_to_features) before /\
      parse_single_example failing name_to_features = Raise e').
  { intros e'. rewrite map_until_raises. split.
    - intros (before & x & after & Heq & Hall & Hx).
      exists before, x, after. repeat split; [exact Heq | |].
      + eapply Forall_impl; [exact Hall |]. intros r Hr.
        apply decode_record_returns. exact Hr.
      + apply decode_record_raises. exact Hx.
    - intros (before & x & after & Heq & Hall & Hx).
      exists before, x, after. repeat split; [exact Heq | |].
      + eapply Forall_impl; [exact Hall |]. intros r Hr.
        apply decode_record_returns. exact Hr.
      + apply decode_record_raises. exact Hx. }
  split; [apply Hraises |].
  split.
  - intros Hnone. apply Forall_forall. intros r Hr.
    destruct (parse_single_example r name_to_features) as [ex | e'] eqn:Hparse;
      [exists ex; exact Hparse |].
    exfalso.
    assert (Hfirst : exists e'',
      snd (map_until (fun r => decode_record r name_to_features) (files input_file))
      = Some e'').
    { clear Hnone Hraises. induction (files input_file) as [| r0 rs IH]; simpl.
      - inversion Hr.
      - destruct (decode_record r0 name_to_features) as [ex0 | e0] eqn:Hr0;
          [| simpl; eauto].
        apply elem_of_cons in Hr as [-> | Hr].
        + apply decode_record_raises in Hparse. rewrite Hparse in Hr0.
          discriminate Hr0.
        + destruct (IH Hr) as [e'' He''].
          destruct (map_until _ rs) as [ys e1]. simpl in *. eauto. }
    destruct Hfirst as [e'' He'']. rewrite He'' in Hnone. discriminate Hnone.
  - intros Hall.
    assert (Hno : forall e',
      snd (map_until (fun r => decode_record r name_to_features) (files input_file))
      <> Some e').
    { intros e' He'. apply Hraises in He' as (before & x & after & Heq & _ & Hx).
      rewrite Heq in Hall. apply Forall_app in Hall as [_ Hall].
      inversion Hall as [| ? ? [ex Hex] _]; subst.
      rewrite Hex in Hx. discriminate Hx. }
    destruct (snd (map_until _ (files input_file))) as [e' |]; [| reflexivity].
    exfalso. apply (Hno e'). reflexivity.
Qed.

Lemma select_without_labels (labels : list string) (record : Example) :
  (forall name, name_in name labels = true -> record !! name = None) ->
  map_fold (select_step labels) (∅, ∅) record = (record, ∅).
Proof.
  intros Hnone.
  destruct (select_loop_partition labels record) as (Hy & _ & _ & Hunion).
  destruct (map_fold (select_step labels) (∅, ∅) record) as [x y]. simpl in *.
  assert (Hempty : y = ∅).
  { apply map_eq. intros name. rewrite Hy, lookup_empty.
    destruct (name_in name labels) eqn:Hname; [apply Hnone; exact Hname | reflexivity]. }
  subst y. rewrite (right_id_L ∅ (∪)) in Hunion. subst x. reflexivity.
Qed.

Lemma eval_schemas_declare_no_label (seq_length : Z) (name : string) :
  name ∈ ["start_positions"; "end_positions"; "is_impossible"] ->
  squad_name_to_features seq_length false !! name = None /\
  squad_v2_name_to_features seq_length false !! name = None.
Proof.
  intros Hname. repeat (apply elem_of_cons in Hname as [-> | Hname]);
    [split; reflexivity .. |].
  inversion Hname.
Qed.

Lemma decoded_fields_declared (record : Serialized) (name_to_features : Schema)
    (example : Example) (name : string) :
  (forall r s ex, parse_single_example r s = Ok ex -> dom ex ⊆ dom s) ->
  decode_record record name_to_features = Ok example ->
  name_to_features !! name = None ->
  example !! name = None.
Proof.
  intros Hkeys Hdecode Hname. rewrite decode_record_eq in Hdecode.
  destruct (parse_single_example record name_to_features) as [parsed | e] eqn:Hparse;
    simpl in Hdecode; [| discriminate Hdecode].
  injection Hdecode as <-. rewrite lookup_fmap.
  apply not_elem_of_dom in Hname.
  assert (Hnot : name ∉ dom parsed).
  { intros Hin. apply Hname. eapply Hkeys; [exact Hparse | exact Hin]. }
  apply not_elem_of_dom in Hnot. rewrite Hnot. reflexivity.
Qed.

(** What an evaluation pipeline of the SQuAD kind yields, for any selector
    loop and any schema that declares none of the selector's labels. *)
Lemma eval_elements_unlabelled (files : InputFile -> list Serialized)
    (labels : list string) (name_to_features : Schema)
    (input_file : InputFile) (batch_size : Z) (drop_remainder : bool)
    (batch : list (Example * Example)) (x y : Example) :
  (forall r s ex, parse_single_example r s = Ok ex -> dom ex ⊆ dom s) ->
  (forall name, name_in name labels = true -> name_to_features !! name = None) ->
  batch ∈ fst (trace_batch batch_size drop_remainder
                 (trace_map (fun record => Ok (map_fold (select_step labels) (∅, ∅) record))
                    (trace_map (fun record => decode_record record name_to_features)
                       (files input_file, None)))) ->
  (x, y) ∈ batch ->
  y = ∅ /\
  exists record,
    record ∈ files input_file /\ decode_record record name_to_features = Ok x.
Proof.
  intros Hkeys Hlabels Hbatch Hxy.
  pose proof (trace_batch_elem _ _ _ _ _ Hbatch Hxy) as Hsel.
  apply trace_map_elem in Hsel as (example & Hexample & Hselect).
  apply trace_map_elem in Hexample as (record & Hrecord & Hdecode).
  simpl in Hrecord. injection Hselect as Hselect.
  rewrite select_without_labels in Hselect.
  - injection Hselect as <- <-. split; [reflexivity |]. exists record. auto.
  - intros name Hname. eapply decoded_fields_declared; eauto.
Qed.

(** C9: with [is_training] false the schemas of [create_squad_dataset] and
    [create_squad_dataset_v2] declare none of [start_positions],
    [end_positions], [is_impossible]; so, the parser returning declared
    fields only, every element [(x, y)] of every batch of the evaluation
    dataset has an empty [y], and [x] is a decoded record of the input, with
    all its fields. *)
Theorem eval_squad_labels_empty
    (files : InputFile -> list Serialized)
    (order : forall T : Type, nat -> Z -> list T -> list T)
    (passes pass : nat) (FLAGS : Flags) (file_path : InputFile)
    (seq_length batch_size : Z) :
  (forall r s ex, parse_single_example r s = Ok ex -> dom ex ⊆ dom s) ->
  (forall name,
     name ∈ ["start_positions"; "end_positions"; "is_impossible"] ->
     squad_name_to_features seq_length false !! name = None /\
     squad_v2_name_to_features seq_length false !! name = None) /\
  (forall batch x y,
     batch ∈ fst (run files order passes
                    (create_squad_dataset FLAGS file_path seq_length batch_size false)
                    pass) ->
     (x, y) ∈ batch ->
     y = ∅ /\
     exists record,
       record ∈ files file_path /\
       decode_record record (squad_name_to_features seq_length false) = Ok x) /\
  (forall batch x y,
     batch ∈ fst (run files order passes
                    (create_squad_dataset_v2 FLAGS file_path seq_length batch_size false)
                    pass) ->
     (x, y) ∈ batch ->
     y = ∅ /\
     exists record,
       record ∈ files file_path /\
       decode_record record (squad_v2_name_to_features seq_length false) = Ok x).
Proof.
  intros Hkeys. split; [apply eval_schemas_declare_no_label |]. split.
  - intros batch x y Hbatch Hxy.
    unfold create_squad_dataset, file_based_input_fn_builder in Hbatch.
    cbn [run] in Hbatch. rewrite run_input_fn in Hbatch.
    eapply (eval_elements_unlabelled files squad_labels); eauto.
    intros name Hname. apply bool_decide_eq_true_1 in Hname.
    apply (eval_schemas_declare_no_label seq_length name).
    unfold squad_labels in Hname.
    apply elem_of_cons in Hname as [-> | Hname]; [left |].
    apply elem_of_cons in Hname as [-> | Hname]; [right; left | inversion Hname].
  - intros batch x y Hbatch Hxy.
    unfold create_squad_dataset_v2, file_based_input_fn_builder in Hbatch.
    cbn [run] in Hbatch. rewrite run_input_fn in Hbatch.
    eapply (eval_elements_unlabelled files squad_v2_labels); eauto.
    intros name Hname. apply bool_decide_eq_true_1 in Hname.
    apply (eval_schemas_declare_no_label seq_length name). exact Hname.
Qed.

Lemma existsb_snoc {T} (p : T -> bool) (l : list T) (s : T) :
  existsb p (l ++ [s]) = existsb p l || p s.
Proof. rewrite existsb_app. simpl. rewrite orb_false_r. reflexivity. Qed.

(** A pipeline without shuffle and repeat stage yields the same trace
    whatever the shuffle order, the number of observed passes and the pass
    are: nothing in it reads them. *)
Lemma run_without_shuffle_repeat {A} (d : Dataset A)
    (files : InputFile -> list Serialized)
    (order1 order2 : forall T : Type, nat -> Z -> list T -> list T)
    (passes1 passes2 pass1 pass2 : nat) :
  has_shuffle d = false -> has_repeat d = false ->
  run files order1 passes1 d pass1 = run files order2 passes2 d pass2.
Proof.
  unfold has_shuffle, has_repeat.
  induction d as [f | A B d IH f | A d IH o | A d IH n r | A d IH
                 | A d IH n r | A d IH n]; simpl stages;
    rewrite ?existsb_snoc; intros Hs Hr;
    try (apply orb_false_elim in Hs as [Hs Hs']);
    try (apply orb_false_elim in Hr as [Hr Hr']);
    try discriminate; simpl run.
  - reflexivity.
  - rewrite (IH Hs Hr). reflexivity.
  - apply IH; assumption.
  - rewrite (IH Hs Hr). reflexivity.
  - apply IH; assumption.
Qed.

(** C10: with [is_training] false each constructor yields, from the same
    input files and parameters, the same elements in the same order (and the
    same exception, if any) in any two runs: whatever order the library's
    shuffle would choose, however many passes are observed, and whatever the
    flags are. *)
Theorem eval_dataset_deterministic
    (files : InputFile -> list Serialized)
    (order1 order2 : forall T : Type, nat -> Z -> list T -> list T)
    (passes1 passes2 pass1 pass2 : nat) (FLAGS1 FLAGS2 : Flags)
    (file_path : InputFile) (seq_length batch_size : Z) (drop_remainder : bool) :
  run files order1 passes1
    (create_classifier_dataset FLAGS1 file_path seq_length batch_size false
       drop_remainder) pass1
  = run files order2 passes2
      (create_classifier_dataset FLAGS2 file_path seq_length batch_size false
         drop_remainder) pass2 /\
  run files order1 passes1
    (create_squad_dataset FLAGS1 file_path seq_length batch_size false) pass1
  = run files order2 passes2
      (create_squad_dataset FLAGS2 file_path seq_length batch_size false) pass2 /\
  run files order1 passes1
    (create_squad_dataset_v2 FLAGS1 file_path seq_length batch_size false) pass1
  = run files order2 passes2
      (create_squad_dataset_v2 FLAGS2 file_path seq_length batch_size false) pass2.
Proof.
  repeat apply conj.
  - change (create_classifier_dataset FLAGS2 file_path seq_length batch_size
              false drop_remainder)
      with (create_classifier_dataset FLAGS1 file_path seq_length batch_size
              false drop_remainder).
    apply run_without_shuffle_repeat; unfold has_shuffle, has_repeat;
      rewrite stages_create_classifier_dataset, stages_input_fn;
      destruct (single_input_file file_path); reflexivity.
  - change (create_squad_dataset FLAGS2 file_path seq_length batch_size false)
      with (create_squad_dataset FLAGS1 file_path seq_length batch_size false).
    apply run_without_shuffle_repeat; unfold has_shuffle, has_repeat;
      rewrite stages_create_squad_dataset, stages_input_fn;
      destruct (single_input_file file_path); reflexivity.
  - change (create_squad_dataset_v2 FLAGS2 file_path seq_length batch_size false)
      with (create_squad_dataset_v2 FLAGS1 file_path seq_length batch_size false).
    apply run_without_shuffle_repeat; unfold has_shuffle, has_repeat;
      rewrite stages_create_squad_dataset_v2, stages_input_fn;
      destruct (single_input_file file_path); reflexivity.
Qed.

(** ** Further properties of the decoding *)

Lemma wrap32_range (z : Z) : int32_range (wrap32 z).
Proof.
  unfold int32_range, wrap32.
  pose proof (Z.mod_pos_bound (z + 2 ^ 31) (2 ^ 32) ltac:(lia)) as H. lia.
Qed.

Lemma wrap32_congruent (z : Z) : exists k, wrap32 z = z + k * 2 ^ 32.
Proof.
  exists (- ((z + 2 ^ 31) / 2 ^ 32)). unfold wrap32.
  rewrite (Z.mod_eq (z + 2 ^ 31) (2 ^ 32)) by lia. lia.
Qed.

Lemma wrap32_small (z : Z) : int32_range z -> wrap32 z = z.
Proof.
  unfold int32_range, wrap32. intros H. rewrite Z.mod_small by lia. lia.
Qed.

(** X1: the int32 field [decode_record] puts in place of an int64 field has
    as many elements, each within the int32 range and equal to the original
    modulo [2^32]; when all original elements fit in an int32 they are
    unchanged. *)
Theorem decode_record_int32_values
    (record : Serialized) (name_to_features : Schema) (parsed : Example)
    (name : string) (t : Tensor) (l : list Z) :
  parse_single_example record name_to_features = Ok parsed ->
  parsed !! name = Some t ->
  values t = Int64s l ->
  exists (example : Example) (l' : list Z),
    decode_record record name_to_features = Ok example /\
    example !! name = Some (mkTensor (shape t) (Int32s l')) /\
    length l' = length l /\
    Forall int32_range l' /\
    Forall2 (fun z z' => exists k, z' = z + k * 2 ^ 32) l l' /\
    (Forall int32_range l -> l' = l).
Proof.
  intros Hparse Hname Hvalues.
  exists (int64_to_int32 <$> parsed), (map wrap32 l).
  split; [rewrite decode_record_eq, Hparse; reflexivity |].
  split.
  { rewrite lookup_fmap, Hname. simpl. unfold int64_to_int32.
    rewrite Hvalues. reflexivity. }
  split; [apply length_map |].
  split.
  { apply Forall_forall. intros z Hz. apply list_elem_of_In, in_map_iff in Hz.
    destruct Hz as (z0 & <- & _). apply wrap32_range. }
  split.
  { clear Hvalues. induction l as [| z l IH]; simpl; constructor;
      [apply wrap32_congruent | exact IH]. }
  intros Hall. clear Hvalues. induction Hall as [| z l Hz Hall IH]; simpl;
    [reflexivity |].
  rewrite (wrap32_small z Hz), IH. reflexivity.
Qed.

(** ** Further properties of the selectors *)

Lemma classifier_select_ok (record : Example) (a b c l : Tensor) :
  record !! "input_ids" = Some a -> record !! "input_mask" = Some b ->
  record !! "segment_ids" = Some c -> record !! "label_ids" = Some l ->
  classifier_select_data_from_record record
  = Ok (<["input_type_ids" := c]>
          (<["input_mask" := b]> (<["input_word_ids" := a]> ∅)), l).
Proof.
  intros Ha Hb Hc Hl. unfold classifier_select_data_from_record, getitem.
  rewrite Ha, Hb, Hc, Hl. reflexivity.
Qed.

(** X2: the classifier selector returns exactly when the record has the
    four fields it subscripts; otherwise it raises [KeyError] for the first
    of [input_ids], [input_mask], [segment_ids], [label_ids] that the record
    lacks, and it raises nothing else. *)
Theorem classifier_select_missing_key (record : Example) :
  ((exists xy, classifier_select_data_from_record record = Ok xy) <->
   forall name, name ∈ classifier_subscripts -> is_Some (record !! name)) /\
  (forall e,
     classifier_select_data_from_record record = Raise e ->
     exists before name after,
       e = KeyError name /\
       classifier_subscripts = before ++ name :: after /\
       record !! name = None /\
       forall name', name' ∈ before -> is_Some (record !! name')).
Proof.
  unfold classifier_subscripts.
  destruct (record !! "input_ids") as [a |] eqn:Ha.
  2: { split.
       - split.
         + intros [xy H]. unfold classifier_select_data_from_record, getitem in H.
           rewrite Ha in H. discriminate H.
         + intros Hall. destruct (Hall "input_ids") as [t Ht]; [left |].
           rewrite Ha in Ht. discriminate Ht.
       - intros e H. unfold classifier_select_data_from_record, getitem in H.
         rewrite Ha in H. injection H as <-.
         exists [], "input_ids", ["input_mask"; "segment_ids"; "label_ids"].
         repeat split; [exact Ha |]. intros name' Hin. inversion Hin. }
  destruct (record !! "input_mask") as [b |] eqn:Hb.
  2: { split.
       - split.
         + intros [xy H]. unfold classifier_select_data_from_record, getitem in H.
           rewrite Ha, Hb in H. discriminate H.
         + intros Hall. destruct (Hall "input_mask") as [t Ht]; [right; left |].
           rewrite Hb in Ht. discriminate Ht.
       - intros e H. unfold classifier_select_data_from_record, getitem in H.
         rewrite Ha, Hb in H. injection H as <-.
         exists ["input_ids"], "input_mask", ["segment_ids"; "label_ids"].
         repeat split; [exact Hb |]. intros name' Hin.
         apply list_elem_of_singleton in Hin. subst name'. rewrite Ha. eauto. }
  destruct (record !! "segment_ids") as [c |] eqn:Hc.
  2: { split.
       - split.
         + intros [xy H]. unfold classifier_select_data_from_record, getitem in H.
           rewrite Ha, Hb, Hc in H. discriminate H.
         + intros Hall.
           destruct (Hall "segment_ids") as [t Ht]; [right; right; left |].
           rewrite Hc in Ht. discriminate Ht.
       - intros e H. unfold classifier_select_data_from_record, getitem in H.
         rewrite Ha, Hb, Hc in H. injection H as <-.
         exists ["input_ids"; "input_mask"], "segment_ids", ["label_ids"].
         repeat split; [exact Hc |]. intros name' Hin.
         repeat (apply elem_of_cons in Hin as [-> | Hin]);
           [rewrite Ha; eauto | rewrite Hb; eauto | inversion Hin]. }
  destruct (record !! "label_ids") as [l |] eqn:Hl.
  2: { split.
       - split.
         + intros [xy H]. unfold classifier_select_data_from_record, getitem in H.
           rewrite Ha, Hb, Hc, Hl in H. discriminate H.
         + intros Hall.
           destruct (Hall "label_ids") as [t Ht]; [right; right; right; left |].
           rewrite Hl in Ht. discriminate Ht.
       - intros e H. unfold classifier_select_data_from_record, getitem in H.
         rewrite Ha, Hb, Hc, Hl in H. injection H as <-.
         exists ["input_ids"; "input_mask"; "segment_ids"], "label_ids", [].
         repeat split; [exact Hl |]. intros name' Hin.
         repeat (apply elem_of_cons in Hin as [-> | Hin]);
           [rewrite Ha; eauto | rewrite Hb; eauto | rewrite Hc; eauto
           | inversion Hin]. }
  split.
  - split.
    + intros _ name Hin.
      repeat (apply elem_of_cons in Hin as [-> | Hin]);
        [rewrite Ha; eauto | rewrite Hb; eauto | rewrite Hc; eauto
        | rewrite Hl; eauto | inversion Hin].
    + intros _. eexists. apply (classifier_select_ok record a b c l); assumption.
  - intros e H. rewrite (classifier_select_ok record a b c l) in H by assumption.
    discriminate H.
Qed.

Lemma select_loop_dom (labels : list string) (record : Example) :
  dom (map_fold (select_step labels) (∅, ∅) record).1
  = dom record ∖ list_to_set labels /\
  dom (map_fold (select_step labels) (∅, ∅) record).2
  = dom record ∩ list_to_set labels.
Proof.
  split; apply set_eq; intros name;
    destruct (select_loop_lookup labels record name) as [Hx Hy];
    rewrite elem_of_dom.
  - rewrite Hx, elem_of_difference, elem_of_list_to_set, elem_of_dom.
    unfold name_in. case_bool_decide as Hin.
    + split; [intros [t Ht]; discriminate Ht | intros [_ Hn]; contradiction].
    + split; [intros Hsome; split; assumption | intros [Hsome _]; exact Hsome].
  - rewrite Hy, elem_of_intersection, elem_of_list_to_set, elem_of_dom.
    unfold name_in. case_bool_decide as Hin.
    + split; [intros Hsome; split; assumption | intros [Hsome _]; exact Hsome].
    + split; [intros [t Ht]; discriminate Ht | intros [_ Hn]; contradiction].
Qed.

(** X3: on a record that has the fields of the training schema, the
    selector of [create_squad_dataset] returns [x] with exactly the keys
    [unique_ids], [input_ids], [input_mask], [segment_ids] and [y] with
    exactly [start_positions], [end_positions]; the selector of
    [create_squad_dataset_v2] returns [x] with those four keys and [p_mask],
    and [y] with [start_positions], [end_positions], [is_impossible]. *)
Theorem squad_select_training_keys (seq_length : Z) (record record_v2 : Example) :
  dom record = dom (squad_name_to_features seq_length true) ->
  dom record_v2 = dom (squad_v2_name_to_features seq_length true) ->
  dom (squad_select_data_from_record record).1
  = ({["unique_ids"; "input_ids"; "input_mask"; "segment_ids"]} : gset string) /\
  dom (squad_select_data_from_record record).2
  = ({["start_positions"; "end_positions"]} : gset string) /\
  dom (squad_v2_select_data_from_record record_v2).1
  = ({["unique_ids"; "input_ids"; "input_mask"; "segment_ids"; "p_mask"]}
     : gset string) /\
  dom (squad_v2_select_data_from_record record_v2).2
  = ({["start_positions"; "end_positions"; "is_impossible"]} : gset string).
Proof.
  intros Hdom Hdom_v2.
  unfold squad_select_data_from_record, squad_v2_select_data_from_record.
  destruct (select_loop_dom squad_labels record) as [-> ->].
  destruct (select_loop_dom squad_v2_labels record_v2) as [-> ->].
  rewrite Hdom, Hdom_v2.
  unfold squad_name_to_features, squad_v2_name_to_features.
  rewrite !dom_insert_L, !dom_empty_L.
  repeat apply conj; gset_decide.
Qed.

Lemma name_in_v2_labels (name : string) :
  name ≠ "is_impossible" ->
  name_in name squad_v2_labels = name_in name squad_labels.
Proof.
  intros Hne. unfold name_in, squad_v2_labels, squad_labels.
  apply bool_decide_ext. rewrite !elem_of_cons, !elem_of_nil. tauto.
Qed.

(** X4: the two SQuAD selectors differ on the field [is_impossible] only.
    The v1 selector leaves it in [x], the v2 selector moves it to [y]; every
    other field goes to the same side in both, so on a record without
    [is_impossible] the two selectors agree. *)
Theorem squad_selectors_differ_on_is_impossible (record : Example) :
  let xy := squad_select_data_from_record record in
  let xy_v2 := squad_v2_select_data_from_record record in
  xy.1 !! "is_impossible" = record !! "is_impossible" /\
  xy.2 !! "is_impossible" = None /\
  xy_v2.1 = delete "is_impossible" xy.1 /\
  xy_v2.2 = match record !! "is_impossible" with
            | Some t => <["is_impossible" := t]> xy.2
            | None => xy.2
            end /\
  (record !! "is_impossible" = None -> xy_v2 = xy).
Proof.
  intros xy xy_v2. subst xy xy_v2.
  unfold squad_select_data_from_record, squad_v2_select_data_from_record.
  assert (Hx : (map_fold (select_step squad_v2_labels) (∅, ∅) record).1
               = delete "is_impossible"
                   (map_fold (select_step squad_labels) (∅, ∅) record).1).
  { apply map_eq. intros name.
    destruct (select_loop_lookup squad_v2_labels record name) as [-> _].
    destruct (decide (name = "is_impossible")) as [-> | Hne].
    - rewrite lookup_delete_eq. reflexivity.
    - rewrite lookup_delete_ne by congruence.
      destruct (select_loop_lookup squad_labels record name) as [-> _].
      rewrite (name_in_v2_labels name Hne). reflexivity. }
  assert (Hy : (map_fold (select_step squad_v2_labels) (∅, ∅) record).2
               = match record !! "is_impossible" with
                 | Some t =>
                     <["is_impossible" := t]>
                       (map_fold (select_step squad_labels) (∅, ∅) record).2
                 | None => (map_fold (select_step squad_labels) (∅, ∅) record).2
                 end).
  { apply map_eq. intros name.
    destruct (select_loop_lookup squad_v2_labels record name) as [_ ->].
    destruct (decide (name = "is_impossible")) as [-> | Hne].
    - destruct (record !! "is_impossible") as [t |] eqn:Ht.
      + rewrite lookup_insert_eq. reflexivity.
      + destruct (select_loop_lookup squad_labels record "is_impossible")
          as [_ ->]. reflexivity.
    - rewrite (name_in_v2_labels name Hne).
      destruct (select_loop_lookup squad_labels record name) as [_ Hy1].
      destruct (record !! "is_impossible") as [t |];
        [rewrite lookup_insert_ne by congruence |]; rewrite Hy1; reflexivity. }
  split.
  { destruct (select_loop_lookup squad_labels record "is_impossible") as [-> _].
    reflexivity. }
  split.
  { destruct (select_loop_lookup squad_labels record "is_impossible") as [_ ->].
    reflexivity. }
  split; [exact Hx |]. split; [exact Hy |].
  intros Hnone. rewrite Hnone in Hy.
  destruct (map_fold (select_step squad_v2_labels) (∅, ∅) record) as [x2 y2].
  destruct (map_fold (select_step squad_labels) (∅, ∅) record) as [x1 y1] eqn:H1.
  simpl in *. subst x2 y2. f_equal. apply delete_id.
  pose proof (select_loop_lookup squad_labels record "is_impossible") as [Hx1 _].
  rewrite H1 in Hx1. simpl in Hx1. rewrite Hx1, Hnone. reflexivity.
Qed.

(** ** Further properties of the schemas *)

(** X5: turning [is_training] on adds the label fields to the schema and
    changes nothing else: the evaluation schema is included in the training
    schema, and the training schema has exactly the fields [start_positions]
    and [end_positions] (and [is_impossible] for v2) more, none of which the
    evaluation schema declares. *)
Theorem training_schema_extends_eval (seq_length : Z) :
  squad_name_to_features seq_length false
  ⊆ squad_name_to_features seq_length true /\
  dom (squad_name_to_features seq_length true)
  = dom (squad_name_to_features seq_length false)
    ∪ {["start_positions"; "end_positions"]} /\
  dom (squad_name_to_features seq_length false)
  ## ({["start_positions"; "end_positions"]} : gset string) /\
  squad_v2_name_to_features seq_length false
  ⊆ squad_v2_name_to_features seq_length true /\
  dom (squad_v2_name_to_features seq_length true)
  = dom (squad_v2_name_to_features seq_length false)
    ∪ {["start_positions"; "end_positions"; "is_impossible"]} /\
  dom (squad_v2_name_to_features seq_length false)
  ## ({["start_positions"; "end_positions"; "is_impossible"]} : gset string).
Proof.
  unfold squad_name_to_features, squad_v2_name_to_features.
  split; [| split; [| split; [| split; [| split]]]].
  - etrans; [| apply insert_subseteq; reflexivity].
    apply insert_subseteq. reflexivity.
  - rewrite !dom_insert_L, !dom_empty_L. gset_decide.
  - rewrite !dom_insert_L, !dom_empty_L. gset_decide.
  - etrans; [| apply insert_subseteq; reflexivity].
    etrans; [| apply insert_subseteq; reflexivity].
    apply insert_subseteq. reflexivity.
  - rewrite !dom_insert_L, !dom_empty_L. gset_decide.
  - rewrite !dom_insert_L, !dom_empty_L. gset_decide.
Qed.


(** ** Further properties of the iteration *)

Lemma map_until_all_ok {A B} (f : A -> Result B) (xs : list A) :
  Forall (fun x => exists y, f x = Ok y) xs ->
  snd (map_until f xs) = None /\
  Forall2 (fun x y => f x = Ok y) xs (fst (map_until f xs)).
Proof.
  induction 1 as [| x xs [y Hy] _ [IHe IHl]]; simpl.
  - split; [reflexivity | constructor].
  - rewrite Hy. destruct (map_until f xs) as [ys e]. simpl in *.
    split; [exact IHe | constructor; assumption].
Qed.

Lemma trace_map_ok_error {A B} (f : A -> Result B) (t : Trace A) :
  (forall x, x ∈ fst t -> exists y, f x = Ok y) ->
  snd (trace_map f t) = snd t.
Proof.
  intros Hok. unfold trace_map.
  destruct (map_until_all_ok f (fst t)) as [He _].
  { apply Forall_forall. exact Hok. }
  destruct (map_until f (fst t)) as [ys e]. simpl in He. subst e. reflexivity.
Qed.

Lemma trace_batch_error {A} (batch_size : Z) (drop_remainder : bool)
    (t : Trace A) :
  0 < batch_size -> snd (trace_batch batch_size drop_remainder t) = snd t.
Proof.
  intros Hpos. unfold trace_batch.
  destruct (Z.leb_spec batch_size 0) as [Hle | _]; [lia |].
  destruct (batch_go (Z.to_nat batch_size) [] (fst t)) as [bs rest].
  destruct (snd t) as [e |]; [reflexivity |].
  destruct rest; reflexivity.
Qed.

Lemma trace_concat_error {A} (ts : list (Trace A)) (s : option Error) :
  ts <> [] -> (forall t, t ∈ ts -> snd t = s) -> snd (trace_concat ts) = s.
Proof.
  induction ts as [| [xs e] ts IH]; intros Hne Hall; [contradiction |].
  assert (He : e = s) by (apply (Hall (xs, e)); left).
  subst s. simpl. destruct e as [e |]; [reflexivity |].
  destruct ts as [| t ts'].
  - reflexivity.
  - assert (IH' : snd (trace_concat (t :: ts')) = None).
    { apply IH; [discriminate |]. intros t' Ht'. apply Hall. right. exact Ht'. }
    destruct (trace_concat (t :: ts')) as [ys e']. exact IH'.
Qed.

(** The stages after the selector pass on the exception of what is before
    them, whatever the mode and the flag. *)
Lemma run_tail_error {A} (files : InputFile -> list Serialized)
    (order : forall T : Type, nat -> Z -> list T -> list T)
    (passes pass : nat) (FLAGS : Flags) (buffer_size batch_size : Z)
    (is_training drop_remainder : bool) (d : Dataset A) (s : option Error) :
  0 < batch_size -> (0 < passes)%nat ->
  (forall k, snd (run files order passes d k) = s) ->
  snd (run files order passes
         (ds_prefetch
            (ds_batch
               (if is_training then
                  if custom_training_loop FLAGS
                  then ds_repeat (ds_shuffle d buffer_size true)
                  else ds_shuffle d buffer_size true
                else d)
               batch_size drop_remainder) 1024) pass) = s.
Proof.
  intros Hbatch Hpasses Hd. cbn [run]. rewrite trace_batch_error by exact Hbatch.
  destruct is_training; [| apply Hd].
  destruct (custom_training_loop FLAGS); cbn [run]; [| apply Hd].
  apply trace_concat_error.
  - destruct passes; [lia | discriminate].
  - intros t Ht. apply list_elem_of_In, in_map_iff in Ht.
    destruct Ht as (k & <- & _). apply Hd.
Qed.

Lemma decoded_elements (files : InputFile -> list Serialized)
    (input_file : InputFile) (name_to_features : Schema) (example : Example) :
  example ∈ fst (trace_map (fun record => decode_record record name_to_features)
                   (files input_file, None)) ->
  exists record,
    record ∈ files input_file /\
    decode_record record name_to_features = Ok example.
Proof. intros H. apply trace_map_elem in H. exact H. Qed.

Lemma decoded_has_declared (record : Serialized) (name_to_features : Schema)
    (example : Example) (name : string) :
  (forall r s ex, parse_single_example r s = Ok ex -> dom s ⊆ dom ex) ->
  decode_record record name_to_features = Ok example ->
  is_Some (name_to_features !! name) ->
  is_Some (example !! name).
Proof.
  intros Hkeys Hdecode Hname. rewrite decode_record_eq in Hdecode.
  destruct (parse_single_example record name_to_features) as [parsed | e] eqn:Hparse;
    simpl in Hdecode; [| discriminate Hdecode].
  injection Hdecode as <-. apply elem_of_dom. rewrite dom_fmap_L.
  eapply Hkeys; [exact Hparse |]. apply elem_of_dom. exact Hname.
Qed.

(** X7: the exception of a whole pipeline is the exception of its decoding
    stage.  For a positive batch size and at least one observed pass, and a
    parser that returns every declared field, each of the three constructors
    raises exactly the exception the dataset of [input_fn] raises over the
    same schema, in training and in evaluation mode: the selectors, the
    shuffle, repeat, batch and prefetch stages add no exception and hide
    none. *)
Theorem constructors_raise_like_input_fn
    (files : InputFile -> list Serialized)
    (order : forall T : Type, nat -> Z -> list T -> list T)
    (passes pass : nat) (FLAGS : Flags) (file_path : InputFile)
    (seq_length batch_size : Z) (is_training drop_remainder : bool) :
  0 < batch_size -> (0 < passes)%nat ->
  (forall r s ex, parse_single_example r s = Ok ex -> dom s ⊆ dom ex) ->
  snd (run files order passes
         (create_classifier_dataset FLAGS file_path seq_length batch_size
            is_training drop_remainder) pass)
  = snd (run files order passes
           (file_based_input_fn_builder file_path
              (classifier_name_to_features seq_length) tt) pass) /\
  snd (run files order passes
         (create_squad_dataset FLAGS file_path seq_length batch_size is_training)
         pass)
  = snd (run files order passes
           (file_based_input_fn_builder file_path
              (squad_name_to_features seq_length is_training) tt) pass) /\
  snd (run files order passes
         (create_squad_dataset_v2 FLAGS file_path seq_length batch_size
            is_training) pass)
  = snd (run files order passes
           (file_based_input_fn_builder file_path
              (squad_v2_name_to_features seq_length is_training) tt) pass).
Proof.
  intros Hbatch Hpasses Hkeys.
  unfold file_based_input_fn_builder. rewrite !run_input_fn.
  split; [| split].
  - apply (run_tail_error files order passes pass FLAGS 1024 batch_size
             is_training drop_remainder
             (ds_map (input_fn file_path (classifier_name_to_features seq_length))
                classifier_select_data_from_record));
      [exact Hbatch | exact Hpasses |].
    intros k. cbn [run]. rewrite run_input_fn.
    apply trace_map_ok_error. intros example Hexample.
    apply decoded_elements in Hexample as (record & _ & Hdecode).
    destruct (decoded_has_declared record _ example "input_ids" Hkeys Hdecode)
      as [a Ha]; [eexists; reflexivity |].
    destruct (decoded_has_declared record _ example "input_mask" Hkeys Hdecode)
      as [b Hb]; [eexists; reflexivity |].
    destruct (decoded_has_declared record _ example "segment_ids" Hkeys Hdecode)
      as [c Hc]; [eexists; reflexivity |].
    destruct (decoded_has_declared record _ example "label_ids" Hkeys Hdecode)
      as [l Hl]; [eexists; reflexivity |].
    eexists. apply (classifier_select_ok example a b c l); assumption.
  - apply (run_tail_error files order passes pass FLAGS 100 batch_size
             is_training false
             (ds_map (input_fn file_path
                        (squad_name_to_features seq_length is_training))
                (fun record => Ok (squad_select_data_from_record record))));
      [exact Hbatch | exact Hpasses |].
    intros k. cbn [run]. rewrite run_input_fn.
    apply trace_map_ok_error. intros example _. eexists. reflexivity.
  - apply (run_tail_error files order passes pass FLAGS 100 batch_size
             is_training false
             (ds_map (input_fn file_path
                        (squad_v2_name_to_features seq_length is_training))
                (fun record => Ok (squad_v2_select_data_from_record record))));
      [exact Hbatch | exact Hpasses |].
    intros k. cbn [run]. rewrite run_input_fn.
    apply trace_map_ok_error. intros example _. eexists. reflexivity.
Qed.

Lemma batch_go_spec {A} (n : nat) (xs cur : list A) :
  (length cur < n)%nat ->
  concat (fst (batch_go n cur xs)) ++ snd (batch_go n cur xs) = cur ++ xs /\
  Forall (fun b => length b = n) (fst (batch_go n cur xs)) /\
  (length (snd (batch_go n cur xs)) < n)%nat.
Proof.
  revert cur. induction xs as [| x0 xs IH]; intros cur Hcur; simpl.
  - rewrite app_nil_r. repeat split; [constructor | exact Hcur].
  - destruct (Nat.eqb_spec (length (cur ++ [x0])) n) as [Hfull | Hnot].
    + destruct (IH [] ltac:(simpl; lia)) as (Hcat & Hlen & Hrest).
      destruct (batch_go n [] xs) as [bs rest]. simpl in *.
      repeat split.
      * rewrite <- app_assoc, Hcat, <- app_assoc. reflexivity.
      * constructor; assumption.
      * exact Hrest.
    + rewrite length_app in Hnot. simpl in Hnot.
      destruct (IH (cur ++ [x0])) as (Hcat & Hlen & Hrest).
      { rewrite length_app. simpl. lia. }
      repeat split; [| exact Hlen | exact Hrest].
      rewrite Hcat, <- app_assoc. reflexivity.
Qed.

(** What a batch stage yields from a trace: full batches, then the elements
    left over as a last, shorter batch unless they are dropped or an
    exception ended the input. *)
Lemma trace_batch_spec {A} (batch_size : Z) (drop_remainder : bool)
    (t : Trace A) :
  0 < batch_size ->
  exists dropped,
    concat (fst (trace_batch batch_size drop_remainder t)) ++ dropped = fst t /\
    Z.of_nat (length dropped) < batch_size /\
    (snd t = None -> drop_remainder = false -> dropped = []) /\
    Forall (fun b => 0 < Z.of_nat (length b) <= batch_size /\
                     (drop_remainder = true -> Z.of_nat (length b) = batch_size))
           (fst (trace_batch batch_size drop_remainder t)).
Proof.
  intros Hpos. unfold trace_batch.
  destruct (Z.leb_spec batch_size 0) as [Hle | _]; [lia |].
  destruct (batch_go_spec (Z.to_nat batch_size) (fst t) []) as (Hcat & Hlen & Hrest).
  { simpl. lia. }
  destruct (batch_go (Z.to_nat batch_size) [] (fst t)) as [bs rest].
  simpl in Hcat, Hlen, Hrest.
  assert (Hfull : Forall (fun b => 0 < Z.of_nat (length b) <= batch_size /\
                     (drop_remainder = true -> Z.of_nat (length b) = batch_size)) bs).
  { eapply Forall_impl; [exact Hlen |]. intros b Hb. simpl in Hb. lia. }
  destruct (snd t) as [e |].
  { exists rest. simpl. repeat split;
      [exact Hcat | lia | discriminate | exact Hfull]. }
  destruct rest as [| r rest].
  { exists []. simpl. repeat split; [exact Hcat | lia | exact Hfull]. }
  destruct drop_remainder.
  - exists (r :: rest). simpl. repeat split;
      [exact Hcat | simpl in Hrest; lia | discriminate | exact Hfull].
  - exists []. simpl. repeat split.
    + rewrite app_nil_r, concat_app. simpl. rewrite app_nil_r. exact Hcat.
    + lia.
    + apply Forall_app. split; [exact Hfull |].
      constructor; [| constructor]. simpl in *. split; [lia | discriminate].
Qed.

(** X8: for a positive batch size, every batch any of the three constructors
    yields, in either mode, has at least one and at most [batch_size]
    elements; and [create_classifier_dataset] called with [drop_remainder]
    true yields batches of exactly [batch_size] elements only. *)
Theorem batch_sizes
    (files : InputFile -> list Serialized)
    (order : forall T : Type, nat -> Z -> list T -> list T)
    (passes pass : nat) (FLAGS : Flags) (file_path : InputFile)
    (seq_length batch_size : Z) (is_training drop_remainder : bool) :
  0 < batch_size ->
  Forall (fun b => 0 < Z.of_nat (length b) <= batch_size /\
                   (drop_remainder = true -> Z.of_nat (length b) = batch_size))
    (fst (run files order passes
            (create_classifier_dataset FLAGS file_path seq_length batch_size
               is_training drop_remainder) pass)) /\
  Forall (fun b => 0 < Z.of_nat (length b) <= batch_size)
    (fst (run files order passes
            (create_squad_dataset FLAGS file_path seq_length batch_size
               is_training) pass)) /\
  Forall (fun b => 0 < Z.of_nat (length b) <= batch_size)
    (fst (run files order passes
            (create_squad_dataset_v2 FLAGS file_path seq_length batch_size
               is_training) pass)).
Proof.
  intros Hpos.
  unfold create_classifier_dataset, create_squad_dataset, create_squad_dataset_v2.
  cbn [run]. split; [| split].
  - match goal with
    | |- Forall _ (fst (trace_batch _ _ ?t)) =>
        destruct (trace_batch_spec batch_size drop_remainder t Hpos)
          as (_ & _ & _ & _ & H)
    end. exact H.
  - match goal with
    | |- Forall _ (fst (trace_batch _ _ ?t)) =>
        destruct (trace_batch_spec batch_size false t Hpos) as (_ & _ & _ & _ & H)
    end. eapply Forall_impl; [exact H |]. intros b [Hb _]. exact Hb.
  - match goal with
    | |- Forall _ (fst (trace_batch _ _ ?t)) =>
        destruct (trace_batch_spec batch_size false t Hpos) as (_ & _ & _ & _ & H)
    end. eapply Forall_impl; [exact H |]. intros b [Hb _]. exact Hb.
Qed.

Lemma trace_map_all_ok {A B} (f : A -> Result B) (t : Trace A) :
  snd t = None ->
  Forall (fun x => exists y, f x = Ok y) (fst t) ->
  snd (trace_map f t) = None /\
  Forall2 (fun x y => f x = Ok y) (fst t) (fst (trace_map f t)).
Proof.
  intros Hnone Hall. unfold trace_map.
  destruct (map_until_all_ok f (fst t) Hall) as [He Hl].
  destruct (map_until f (fst t)) as [ys e]. simpl in *. subst e.
  split; [exact Hnone | exact Hl].
Qed.

Lemma Forall2_compose {A B C} (P : A -> B -> Prop) (Q : B -> C -> Prop)
    (xs : list A) (ys : list B) (zs : list C) :
  Forall2 P xs ys -> Forall2 Q ys zs ->
  Forall2 (fun x z => exists y, P x y /\ Q y z) xs zs.
Proof.
  intros HP. revert zs. induction HP as [| x y xs ys Hxy _ IH]; intros zs HQ.
  - inversion HQ. constructor.
  - inversion HQ as [| ? z ? zs' Hyz HQ']; subst. constructor; [eauto | auto].
Qed.

(** The examples a selector gets when every record parses: one per record,
    in file order. *)
Lemma selected_examples {B} (files : InputFile -> list Serialized)
    (input_file : InputFile) (name_to_features : Schema)
    (select : Example -> Result B) :
  Forall (parses name_to_features) (files input_file) ->
  (forall record example,
     decode_record record name_to_features = Ok example ->
     exists y, select example = Ok y) ->
  let t := trace_map select
             (trace_map (fun record => decode_record record name_to_features)
                (files input_file, None)) in
  snd t = None /\
  Forall2 (fun record y =>
             exists example,
               decode_record record name_to_features = Ok example /\
               select example = Ok y)
          (files input_file) (fst t).
Proof.
  intros Hparse Hselect t. subst t.
  destruct (trace_map_all_ok (fun record => decode_record record name_to_features)
              (files input_file, None) eq_refl) as [Hnone Hdecoded].
  { simpl. eapply Forall_impl; [exact Hparse |]. intros r Hr.
    apply decode_record_returns. exact Hr. }
  simpl fst in Hdecoded.
  destruct (trace_map_all_ok select _ Hnone) as [Hnone' Hselected].
  { apply Forall_forall. intros example Hexample.
    apply decoded_elements in Hexample as (record & _ & Hdecode). eauto. }
  split; [exact Hnone' |].
  exact (Forall2_compose _ _ _ _ _ Hdecoded Hselected).
Qed.

(** X9: an evaluation pipeline of [create_squad_dataset] or
    [create_squad_dataset_v2] over records that all parse, with a positive
    batch size, raises nothing and loses nothing: its batches, put end to
    end, are the selected decoded records, one for each record of the input,
    in the order of the input. *)
Theorem squad_eval_yields_every_record
    (files : InputFile -> list Serialized)
    (order : forall T : Type, nat -> Z -> list T -> list T)
    (passes pass : nat) (FLAGS : Flags) (file_path file_path_v2 : InputFile)
    (seq_length batch_size : Z) :
  0 < batch_size ->
  Forall (parses (squad_name_to_features seq_length false)) (files file_path) ->
  Forall (parses (squad_v2_name_to_features seq_length false))
    (files file_path_v2) ->
  let trace :=
    run files order passes
      (create_squad_dataset FLAGS file_path seq_length batch_size false) pass in
  let trace_v2 :=
    run files order passes
      (create_squad_dataset_v2 FLAGS file_path_v2 seq_length batch_size false)
      pass in
  snd trace = None /\
  Forall2 (fun record xy =>
             exists example,
               decode_record record (squad_name_to_features seq_length false)
               = Ok example /\
               xy = squad_select_data_from_record example)
          (files file_path) (concat (fst trace)) /\
  snd trace_v2 = None /\
  Forall2 (fun record xy =>
             exists example,
               decode_record record (squad_v2_name_to_features seq_length false)
               = Ok example /\
               xy = squad_v2_select_data_from_record example)
          (files file_path_v2) (concat (fst trace_v2)).
Proof.
  intros Hpos Hparse Hparse_v2 trace trace_v2. subst trace trace_v2.
  unfold create_squad_dataset, create_squad_dataset_v2, file_based_input_fn_builder.
  cbn [run]. rewrite !run_input_fn. rewrite !trace_batch_error by exact Hpos.
  destruct (selected_examples files file_path
              (squad_name_to_features seq_length false)
              (fun record => Ok (squad_select_data_from_record record)) Hparse)
    as [Hnone Hall]; [eauto |].
  destruct (selected_examples files file_path_v2
              (squad_v2_name_to_features seq_length false)
              (fun record => Ok (squad_v2_select_data_from_record record))
              Hparse_v2)
    as [Hnone_v2 Hall_v2]; [eauto |].
  split; [exact Hnone |]. split; [| split; [exact Hnone_v2 |]].
  - match goal with
    | |- Forall2 _ _ (concat (fst (trace_batch _ _ ?t))) =>
        destruct (trace_batch_spec batch_size false t Hpos)
          as (dropped & Hcat & _ & Hdrop & _)
    end.
    rewrite (Hdrop Hnone eq_refl), app_nil_r in Hcat. rewrite Hcat.
    eapply Forall2_impl; [exact Hall |].
    intros record xy (example & Hdecode & [= <-]). eauto.
  - match goal with
    | |- Forall2 _ _ (concat (fst (trace_batch _ _ ?t))) =>
        destruct (trace_batch_spec batch_size false t Hpos)
          as (dropped & Hcat & _ & Hdrop & _)
    end.
    rewrite (Hdrop Hnone_v2 eq_refl), app_nil_r in Hcat. rewrite Hcat.
    eapply Forall2_impl; [exact Hall_v2 |].
    intros record xy (example & Hdecode & [= <-]). eauto.
Qed.

(** X10: an evaluation pipeline of [create_classifier_dataset] over records
    that all parse, the parser returning every declared field, raises
    nothing; its batches, put end to end, are the selected records in input
    order, up to a tail of fewer than [batch_size] examples that is left out
    when [drop_remainder] is true, and nothing is left out when it is
    false. *)
Theorem classifier_eval_drops_less_than_a_batch
    (files : InputFile -> list Serialized)
    (order : forall T : Type, nat -> Z -> list T -> list T)
    (passes pass : nat) (FLAGS : Flags) (file_path : InputFile)
    (seq_length batch_size : Z) (drop_remainder : bool) :
  0 < batch_size ->
  (forall r s ex, parse_single_example r s = Ok ex -> dom s ⊆ dom ex) ->
  Forall (parses (classifier_name_to_features seq_length)) (files file_path) ->
  let trace :=
    run files order passes
      (create_classifier_dataset FLAGS file_path seq_length batch_size false
         drop_remainder) pass in
  snd trace = None /\
  exists dropped,
    Forall2 (fun record xy =>
               exists example,
                 decode_record record (classifier_name_to_features seq_length)
                 = Ok example /\
                 classifier_select_data_from_record example = Ok xy)
            (files file_path) (concat (fst trace) ++ dropped) /\
    Z.of_nat (length dropped) < batch_size /\
    (drop_remainder = false -> dropped = []).
Proof.
  intros Hpos Hkeys Hparse trace. subst trace.
  unfold create_classifier_dataset, file_based_input_fn_builder.
  cbn [run]. rewrite run_input_fn. rewrite trace_batch_error by exact Hpos.
  destruct (selected_examples files file_path
              (classifier_name_to_features seq_length)
              classifier_select_data_from_record Hparse) as [Hnone Hall].
  { intros record example Hdecode.
    destruct (decoded_has_declared record _ example "input_ids" Hkeys Hdecode)
      as [a Ha]; [eexists; reflexivity |].
    destruct (decoded_has_declared record _ example "input_mask" Hkeys Hdecode)
      as [b Hb]; [eexists; reflexivity |].
    destruct (decoded_has_declared record _ example "segment_ids" Hkeys Hdecode)
      as [c Hc]; [eexists; reflexivity |].
    destruct (decoded_has_declared record _ example "label_ids" Hkeys Hdecode)
      as [l Hl]; [eexists; reflexivity |].
    eexists. apply (classifier_select_ok example a b c l); assumption. }
  split; [exact Hnone |].
  match goal with
  | |- context [trace_batch _ _ ?t] =>
      destruct (trace_batch_spec batch_size drop_remainder t Hpos)
        as (dropped & Hcat & Hlen & Hdrop & _)
  end.
  exists dropped. rewrite Hcat.
  split; [exact Hall |]. split; [exact Hlen |]. apply Hdrop. exact Hnone.
Qed.

(** X11: training without the custom training loop shuffles but neither
    loses nor repeats examples.  If the order a shuffle chooses is a
    permutation of its input, every record parses and the batch size is
    positive, the batches of [create_squad_dataset] in training mode, put end
    to end, are a permutation of the selected decoded records, and the
    pipeline raises nothing. *)
Theorem squad_training_permutes
    (files : InputFile -> list Serialized)
    (order : forall T : Type, nat -> Z -> list T -> list T)
    (passes pass : nat) (FLAGS : Flags) (file_path : InputFile)
    (seq_length batch_size : Z) :
  0 < batch_size ->
  custom_training_loop FLAGS = false ->
  (forall T k n (l : list T), order T k n l ≡ₚ l) ->
  Forall (parses (squad_name_to_features seq_length true)) (files file_path) ->
  let trace :=
    run files order passes
      (create_squad_dataset FLAGS file_path seq_length batch_size true) pass in
  snd trace = None /\
  exists selected,
    Forall2 (fun record xy =>
               exists example,
                 decode_record record (squad_name_to_features seq_length true)
                 = Ok example /\
                 xy = squad_select_data_from_record example)
            (files file_path) selected /\
    concat (fst trace) ≡ₚ selected.
Proof.
  intros Hpos Hflag Horder Hparse trace. subst trace.
  unfold create_squad_dataset, file_based_input_fn_builder.
  rewrite Hflag. cbn [run]. rewrite run_input_fn.
  rewrite trace_batch_error by exact Hpos. simpl snd.
  destruct (selected_examples files file_path
              (squad_name_to_features seq_length true)
              (fun record => Ok (squad_select_data_from_record record)) Hparse)
    as [Hnone Hall]; [eauto |].
  split; [exact Hnone |].
  eexists. split.
  - eapply Forall2_impl; [exact Hall |].
    intros record xy (example & Hdecode & [= <-]). eauto.
  - match goal with
    | |- concat (fst (trace_batch _ _ ?t)) ≡ₚ _ =>
        destruct (trace_batch_spec batch_size false t Hpos)
          as (dropped & Hcat & _ & Hdrop & _)
    end.
    simpl snd in Hdrop. rewrite (Hdrop Hnone eq_refl), app_nil_r in Hcat.
    rewrite Hcat. simpl fst. apply Horder.
Qed.

(** ** Element types after decoding *)

Lemma int64_to_int32_dtype_eq (t : Tensor) :
  dtype (int64_to_int32 t)
  = match dtype t with DT_INT64 => DT_INT32 | dt => dt end.
Proof. destruct t as [sh v]. destruct v; reflexivity. Qed.

Lemma decoded_dtype (record : Serialized) (name_to_features : Schema)
    (example : Example) (name : string) (t : Tensor) :
  returns_declared_dtypes name_to_features ->
  decode_record record name_to_features = Ok example ->
  example !! name = Some t ->
  exists feature,
    name_to_features !! name = Some feature /\
    dtype t = match fl_dtype feature with DT_INT64 => DT_INT32 | dt => dt end.
Proof.
  intros Hdtypes Hdecode Hname. rewrite decode_record_eq in Hdecode.
  destruct (parse_single_example record name_to_features) as [parsed | e] eqn:Hparse;
    simpl in Hdecode; [| discriminate Hdecode].
  injection Hdecode as <-. rewrite lookup_fmap in Hname.
  destruct (parsed !! name) as [t0 |] eqn:Ht0; simpl in Hname; [| discriminate Hname].
  injection Hname as <-.
  destruct (Hdtypes record parsed name t0 Hparse Ht0) as (feature & Hfeature & Hdt).
  exists feature. split; [exact Hfeature |].
  rewrite int64_to_int32_dtype_eq, Hdt. reflexivity.
Qed.

Ltac dtype_cases H Hdt :=
  repeat (rewrite lookup_insert in H; case_decide;
          [subst; injection H as <-; exact Hdt |]);
  rewrite lookup_empty in H; discriminate H.

(** X12: with a parser that returns tensors of the declared element types,
    every field of an example decoded against the classifier schema or the
    SQuAD schema is int32, and an example decoded against the v2 schema has
    float32 fields [input_mask], [p_mask] and [is_impossible] and int32
    fields otherwise. *)
Theorem decoded_element_types (seq_length : Z) (is_training : bool)
    (record : Serialized) (example : Example) (name : string) (t : Tensor) :
  returns_declared_dtypes (classifier_name_to_features seq_length) ->
  returns_declared_dtypes (squad_name_to_features seq_length is_training) ->
  returns_declared_dtypes (squad_v2_name_to_features seq_length is_training) ->
  example !! name = Some t ->
  (decode_record record (classifier_name_to_features seq_length) = Ok example ->
   dtype t = DT_INT32) /\
  (decode_record record (squad_name_to_features seq_length is_training)
   = Ok example ->
   dtype t = DT_INT32) /\
  (decode_record record (squad_v2_name_to_features seq_length is_training)
   = Ok example ->
   dtype t = if name_in name ["input_mask"; "p_mask"; "is_impossible"]
             then DT_FLOAT else DT_INT32).
Proof.
  intros Hclassifier Hsquad Hv2 Hname. split; [| split]; intros Hdecode.
  - destruct (decoded_dtype _ _ _ _ _ Hclassifier Hdecode Hname)
      as (feature & H & Hdt).
    unfold classifier_name_to_features in H. dtype_cases H Hdt.
  - destruct (decoded_dtype _ _ _ _ _ Hsquad Hdecode Hname)
      as (feature & H & Hdt).
    unfold squad_name_to_features in H.
    destruct is_training; dtype_cases H Hdt.
  - destruct (decoded_dtype _ _ _ _ _ Hv2 Hdecode Hname)
      as (feature & H & Hdt).
    unfold squad_v2_name_to_features in H.
    destruct is_training; dtype_cases H Hdt.
Qed.

(** ** The order of the stages *)

(** X13: the order in which each constructor applies its stages: records
    are read and decoded, auto sharding is switched off for a single input
    file, the selector is mapped, then in training mode the examples (not the
    batches) are shuffled, with buffer size 1024 for the classifier and 100
    for SQuAD and reshuffling at each iteration, and then repeated if the
    custom training loop flag is set, so that each repetition is shuffled
    anew; batching and prefetching come last. *)
Theorem pipeline_stage_order (FLAGS : Flags) (file_path : InputFile)
    (seq_length batch_size : Z) (is_training drop_remainder : bool) :
  let head :=
    [StTFRecordDataset file_path; StMap]
    ++ (if single_input_file file_path
        then [StWithOptions (mkOptions (Some false))] else [])
    ++ [StMap] in
  let tail drop := [StBatch batch_size drop; StPrefetch 1024] in
  let middle buffer_size :=
    (if is_training then [StShuffle buffer_size true] else [])
    ++ (if is_training && custom_training_loop FLAGS then [StRepeat] else []) in
  stages (create_classifier_dataset FLAGS file_path seq_length batch_size
            is_training drop_remainder)
  = head ++ middle 1024 ++ tail drop_remainder /\
  stages (create_squad_dataset FLAGS file_path seq_length batch_size is_training)
  = head ++ middle 100 ++ tail false /\
  stages (create_squad_dataset_v2 FLAGS file_path seq_length batch_size
            is_training)
  = head ++ middle 100 ++ tail false.
Proof.
  intros head tail middle. subst head tail middle.
  rewrite stages_create_classifier_dataset, stages_create_squad_dataset,
    stages_create_squad_dataset_v2, !stages_input_fn.
  destruct is_training, (custom_training_loop FLAGS),
    (single_input_file file_path); repeat apply conj; reflexivity.
Qed.

End Pipeline.

(** ** The reference parser and the sample runs *)

(** The reference parser returns the declared fields, all of them and no
    other. *)
Lemma parse_single_example_ref_dom (record : TFExample) (name_to_features : Schema)
    (example : Example) :
  parse_single_example_ref record name_to_features = Ok example ->
  dom example = dom name_to_features.
Proof.
  unfold parse_single_example_ref. revert example.
  apply (map_fold_weak_ind (fun (r : Result Example) (s : Schema) =>
           forall example, r = Ok example -> dom example = dom s)).
  - intros example [= <-]. rewrite !dom_empty_L. reflexivity.
  - intros name spec s r Hfresh IH example Hstep.
    destruct r as [ex | e]; simpl in Hstep; [| discriminate Hstep].
    destruct (parse_feature name spec (record !! name)) as [t | e];
      simpl in Hstep; [| discriminate Hstep].
    injection Hstep as <-. rewrite !dom_insert_L, (IH ex eq_refl). reflexivity.
Qed.

Lemma parse_single_example_ref_declared (record : TFExample)
    (name_to_features : Schema) (example : Example) :
  parse_single_example_ref record name_to_features = Ok example ->
  dom example ⊆ dom name_to_features.
Proof. intros H. rewrite (parse_single_example_ref_dom _ _ _ H). reflexivity. Qed.

(** A label that does not fit in 32 bits is truncated by the decoding. *)
Example decode_sample_label :
  (example ← decode_record TFExample parse_single_example_ref
               sample_classifier_record (classifier_name_to_features 2);
   Ok (example !! "label_ids"))
  = Ok (Some (mkTensor [] (Int32s [1]))).
Proof. vm_compute. reflexivity. Qed.

(** A training pipeline does depend on the order the shuffle chooses. *)
Example training_depends_on_order :
  run TFExample sample_training_files keep_order 1
    (create_squad_dataset TFExample parse_single_example_ref (mkFlags false)
       (Path "train.tf_record") 2 2 true) 0
  <> run TFExample sample_training_files reverse_order 1
       (create_squad_dataset TFExample parse_single_example_ref (mkFlags false)
          (Path "train.tf_record") 2 2 true) 0.
Proof.
  intros H.
  apply (f_equal (fun t : Trace (list (Example * Example)) =>
                    map (map (fun xy => fst xy !! "unique_ids")) (fst t))) in H.
  vm_compute in H. discriminate H.
Qed.

(** An evaluation run over the sample files: two batches, no exception. *)
Example eval_sample_run :
  let trace :=
    run TFExample sample_files keep_order 1
      (create_squad_dataset TFExample parse_single_example_ref (mkFlags true)
         (Path "dev.tf_record") 2 2 false) 0 in
  map (map (fun xy => (size (fst xy), size (snd xy)))) (fst trace)
  = [[(4%nat, 0%nat); (4%nat, 0%nat)]; [(4%nat, 0%nat)]] /\
  snd trace = None.
Proof. vm_compute. split; reflexivity. Qed.

(** A record that does not fit the schema ends the iteration with the
    parser's exception. *)
Example broken_sample_run :
  snd (run TFExample sample_broken_files keep_order 1
         (file_based_input_fn_builder TFExample parse_single_example_ref
            (Path "dev.tf_record") (squad_name_to_features 2 false) tt) 0)
  = Some (InvalidArgumentError
            "Feature: unique_ids is required but could not be found.").
Proof. vm_compute. reflexivity. Qed.

(** ** The theorems at the sample inputs *)

(** C1 at the sample classifier record. *)
Lemma decode_record_casts_int64_witness :
  parse_single_example_ref sample_classifier_record (classifier_name_to_features 2)
  = Ok sample_classifier_parsed /\
  exists example : Example,
    decode_record TFExample parse_single_example_ref sample_classifier_record
      (classifier_name_to_features 2) = Ok example /\
    dom example = dom sample_classifier_parsed /\
    (forall name t l,
       sample_classifier_parsed !! name = Some t -> values t = Int64s l ->
       example !! name = Some (mkTensor (shape t) (Int32s (map wrap32 l)))) /\
    (forall name t,
       sample_classifier_parsed !! name = Some t -> dtype t ≠ DT_INT64 ->
       example !! name = Some t) /\
    (forall name t, example !! name = Some t -> dtype t ≠ DT_INT64).
Proof.
  split; [vm_compute; reflexivity |].
  apply decode_record_casts_int64. vm_compute. reflexivity.
Defined.

(** C6 at [input_ids] of the classifier schema, for sequences of length 128. *)
Lemma declared_shapes_witness :
  (classifier_name_to_features 128 !! "input_ids"
   = Some (tf_io_FixedLenFeature [128] DT_INT64) \/
   squad_name_to_features 128 true !! "input_ids"
   = Some (tf_io_FixedLenFeature [128] DT_INT64) \/
   squad_v2_name_to_features 128 true !! "input_ids"
   = Some (tf_io_FixedLenFeature [128] DT_INT64)) /\
  Some (fl_shape (tf_io_FixedLenFeature [128] DT_INT64))
  = expected_shape 128 "input_ids" /\
  fl_default_value (tf_io_FixedLenFeature [128] DT_INT64) = None.
Proof.
  assert (H : classifier_name_to_features 128 !! "input_ids"
              = Some (tf_io_FixedLenFeature [128] DT_INT64) \/
              squad_name_to_features 128 true !! "input_ids"
              = Some (tf_io_FixedLenFeature [128] DT_INT64) \/
              squad_v2_name_to_features 128 true !! "input_ids"
              = Some (tf_io_FixedLenFeature [128] DT_INT64)).
  { left. vm_compute. reflexivity. }
  split; [exact H |].
  exact (declared_shapes 128 true "input_ids" _ H).
Defined.

(** C8 at the parsed sample classifier record. *)
Lemma classifier_select_spec_witness :
  dom sample_classifier_parsed = dom (classifier_name_to_features 2) /\
  exists (x : Example) (y : Tensor),
    classifier_select_data_from_record sample_classifier_parsed = Ok (x, y) /\
    dom x = ({["input_word_ids"; "input_mask"; "input_type_ids"]} : gset string) /\
    sample_classifier_parsed !! "label_ids" = Some y /\
    x !! "is_real_example" = None.
Proof.
  split; [vm_compute; reflexivity |].
  destruct (classifier_select_spec 2 sample_classifier_parsed)
    as (x & y & Hsel & Hdom & _ & _ & _ & Hy & _ & Hnone & _);
    [vm_compute; reflexivity |].
  exists x, y. auto.
Defined.

(** C9 at the sample files, read with the reference parser. *)
Lemma eval_squad_labels_empty_witness :
  (forall r s ex, parse_single_example_ref r s = Ok ex -> dom ex ⊆ dom s) /\
  (forall batch x y,
     batch ∈ fst (run TFExample sample_files keep_order 1
                    (create_squad_dataset TFExample parse_single_example_ref
                       (mkFlags true) (Path "dev.tf_record") 2 2 false) 0) ->
     (x, y) ∈ batch -> y = ∅).
Proof.
  split; [exact parse_single_example_ref_declared |].
  intros batch x y Hbatch Hxy.
  destruct (eval_squad_labels_empty TFExample parse_single_example_ref
              sample_files keep_order 1 0 (mkFlags true) (Path "dev.tf_record")
              2 2 parse_single_example_ref_declared) as (_ & Hsquad & _).
  destruct (Hsquad batch x y Hbatch Hxy) as [Hy _]. exact Hy.
Defined.

(** ** Where the specification and the code part *)

(** C5 as stated fails: for a single input path [input_fn] does configure
    sharding, it switches [auto_shard] off, so the options are not the
    library's defaults. *)
Lemma sharding_configured_for_single_file :
  let d :=
    file_based_input_fn_builder TFExample parse_single_example_ref
      (Path "train.tf_record") (classifier_name_to_features 128) tt in
  ~ (dataset_options TFExample d = tf_data_Options /\
     options_calls TFExample d = []).
Proof. intros d [Hoptions _]. vm_compute in Hoptions. discriminate Hoptions. Qed.

(** C7 as stated fails: the batch and prefetch stages of a training pipeline
    and of an evaluation pipeline are the same, in each constructor. *)
Lemma batch_prefetch_same_in_both_modes :
  let FLAGS := mkFlags true in
  let file_path := Path "train.tf_record" in
  ~ (batch_prefetch_policy TFExample
       (create_classifier_dataset TFExample parse_single_example_ref FLAGS
          file_path 128 32 true true)
     <> batch_prefetch_policy TFExample
          (create_classifier_dataset TFExample parse_single_example_ref FLAGS
             file_path 128 32 false true) \/
     batch_prefetch_policy TFExample
       (create_squad_dataset TFExample parse_single_example_ref FLAGS
          file_path 128 32 true)
     <> batch_prefetch_policy TFExample
          (create_squad_dataset TFExample parse_single_example_ref FLAGS
             file_path 128 32 false) \/
     batch_prefetch_policy TFExample
       (create_squad_dataset_v2 TFExample parse_single_example_ref FLAGS
          file_path 128 32 true)
     <> batch_prefetch_policy TFExample
          (create_squad_dataset_v2 TFExample parse_single_example_ref FLAGS
             file_path 128 32 false)).
Proof.
  intros FLAGS file_path [H | [H | H]]; apply H; reflexivity.
Qed.

(** ** The further properties at the sample inputs *)

Lemma parse_single_example_ref_complete (record : TFExample)
    (name_to_features : Schema) (example : Example) :
  parse_single_example_ref record name_to_features = Ok example ->
  dom name_to_features ⊆ dom example.
Proof. intros H. rewrite (parse_single_example_ref_dom _ _ _ H). reflexivity. Qed.

Lemma DType_eqb_eq (a b : DType) : DType_eqb a b = true -> a = b.
Proof. destruct a, b; simpl; congruence. Qed.

Lemma parse_feature_dtype (name : string) (spec : FixedLenFeature)
    (f : option Feature) (t : Tensor) :
  fl_default_value spec = None ->
  parse_feature name spec f = Ok t ->
  dtype t = fl_dtype spec.
Proof.
  intros Hdefault. unfold parse_feature. destruct f as [f |].
  - destruct (DType_eqb (dtype (mkTensor (fl_shape spec) (feature_values f)))
                (fl_dtype spec)) eqn:Hdt; simpl; [| discriminate].
    destruct (negb _); [discriminate |].
    intros [= <-]. apply DType_eqb_eq. exact Hdt.
  - rewrite Hdefault. discriminate.
Qed.

(** Over a schema without default values the reference parser returns
    tensors of the declared element types. *)
Lemma parse_single_example_ref_dtypes (name_to_features : Schema) :
  (forall name feature,
     name_to_features !! name = Some feature -> fl_default_value feature = None) ->
  returns_declared_dtypes TFExample parse_single_example_ref name_to_features.
Proof.
  unfold returns_declared_dtypes, parse_single_example_ref.
  intros Hdefault record.
  revert Hdefault.
  apply (map_fold_weak_ind (fun (r : Result Example) (s : Schema) =>
           (forall name feature, s !! name = Some feature ->
                                 fl_default_value feature = None) ->
           forall example name t,
             r = Ok example -> example !! name = Some t ->
             exists feature, s !! name = Some feature /\ dtype t = fl_dtype feature)).
  - intros _ example name t [= <-]. rewrite lookup_empty. discriminate.
  - intros i spec s r Hfresh IH Hdefault example name t Hstep Hname.
    destruct r as [ex | e]; simpl in Hstep; [| discriminate Hstep].
    destruct (parse_feature i spec (record !! i)) as [t0 | e] eqn:Hfeature;
      simpl in Hstep; [| discriminate Hstep].
    injection Hstep as <-.
    destruct (decide (i = name)) as [-> | Hne].
    + rewrite lookup_insert_eq in Hname. injection Hname as <-.
      exists spec. split; [apply lookup_insert_eq |].
      eapply parse_feature_dtype; [| exact Hfeature].
      apply (Hdefault name). apply lookup_insert_eq.
    + rewrite lookup_insert_ne in Hname by exact Hne.
      destruct (IH (fun n f Hn => Hdefault n f ltac:(
                       rewrite lookup_insert_ne;
                       [exact Hn | intros ->; rewrite Hfresh in Hn; discriminate Hn]))
                  ex name t eq_refl Hname) as (feature & Hs & Hdt).
      exists feature. split; [| exact Hdt].
      rewrite lookup_insert_ne by exact Hne. exact Hs.
Qed.

Ltac no_default H :=
  repeat (rewrite lookup_insert in H; case_decide;
          [injection H as <-; reflexivity |]);
  rewrite lookup_empty in H; discriminate H.

Lemma sample_schemas_without_default (name : string) (feature : FixedLenFeature) :
  classifier_name_to_features 2 !! name = Some feature \/
  squad_name_to_features 2 true !! name = Some feature \/
  squad_v2_name_to_features 2 true !! name = Some feature ->
  fl_default_value feature = None.
Proof.
  intros [H | [H | H]].
  - unfold classifier_name_to_features in H. no_default H.
  - unfold squad_name_to_features in H. no_default H.
  - unfold squad_v2_name_to_features in H. no_default H.
Qed.

(** X1 at the label of the sample classifier record, which does not fit in
    32 bits. *)
Lemma decode_record_int32_values_witness :
  parse_single_example_ref sample_classifier_record (classifier_name_to_features 2)
  = Ok sample_classifier_parsed /\
  sample_classifier_parsed !! "label_ids" = Some (mkTensor [] (Int64s [4294967297])) /\
  exists (example : Example) (l' : list Z),
    decode_record TFExample parse_single_example_ref sample_classifier_record
      (classifier_name_to_features 2) = Ok example /\
    example !! "label_ids" = Some (mkTensor [] (Int32s l')) /\
    Forall int32_range l'.
Proof.
  assert (Hparse : parse_single_example_ref sample_classifier_record
                     (classifier_name_to_features 2) = Ok sample_classifier_parsed)
    by (vm_compute; reflexivity).
  assert (Hname : sample_classifier_parsed !! "label_ids"
                  = Some (mkTensor [] (Int64s [4294967297])))
    by (vm_compute; reflexivity).
  split; [exact Hparse |]. split; [exact Hname |].
  destruct (decode_record_int32_values TFExample parse_single_example_ref
              sample_classifier_record (classifier_name_to_features 2)
              sample_classifier_parsed "label_ids"
              (mkTensor [] (Int64s [4294967297])) [4294967297]
              Hparse Hname eq_refl)
    as (example & l' & Hdecode & Hfield & _ & Hrange & _).
  exists example, l'. auto.
Defined.

(** X3 at the decoded sample training records. *)
Lemma squad_select_training_keys_witness :
  dom sample_squad_training_decoded = dom (squad_name_to_features 2 true) /\
  dom sample_squad_v2_training_decoded = dom (squad_v2_name_to_features 2 true) /\
  dom (squad_select_data_from_record sample_squad_training_decoded).2
  = ({["start_positions"; "end_positions"]} : gset string) /\
  dom (squad_v2_select_data_from_record sample_squad_v2_training_decoded).2
  = ({["start_positions"; "end_positions"; "is_impossible"]} : gset string).
Proof.
  assert (H1 : dom sample_squad_training_decoded
               = dom (squad_name_to_features 2 true))
    by gset_decide.
  assert (H2 : dom sample_squad_v2_training_decoded
               = dom (squad_v2_name_to_features 2 true))
    by gset_decide.
  split; [exact H1 |]. split; [exact H2 |].
  destruct (squad_select_training_keys 2 _ _ H1 H2) as (_ & Hy & _ & Hy2).
  split; [exact Hy | exact Hy2].
Defined.


Lemma parses_ref (record : TFExample) (name_to_features : Schema) :
  is_ok (parse_single_example_ref record name_to_features) = true ->
  parses TFExample parse_single_example_ref name_to_features record.
Proof.
  unfold parses.
  destruct (parse_single_example_ref record name_to_features) as [example | e];
    [eauto | discriminate].
Qed.

Lemma sample_files_parse :
  Forall (parses TFExample parse_single_example_ref (squad_name_to_features 2 false))
    (sample_eval_files (Path "dev.tf_record")) /\
  Forall (parses TFExample parse_single_example_ref
            (squad_v2_name_to_features 2 false))
    (sample_eval_files (Path "dev_v2.tf_record")) /\
  Forall (parses TFExample parse_single_example_ref (classifier_name_to_features 2))
    (sample_classifier_files (Path "eval.tf_record")) /\
  Forall (parses TFExample parse_single_example_ref (squad_name_to_features 2 true))
    (sample_training_files (Path "train.tf_record")).
Proof.
  repeat apply conj;
    repeat (apply List.Forall_cons; [apply parses_ref; vm_compute; reflexivity |]);
    apply List.Forall_nil.
Qed.

(** X7 at a training pipeline over the broken sample files. *)
Lemma constructors_raise_like_input_fn_witness :
  0 < 2 /\ (0 < 1)%nat /\
  (forall r s ex, parse_single_example_ref r s = Ok ex -> dom s ⊆ dom ex) /\
  snd (run TFExample sample_broken_files reverse_order 1
         (create_squad_dataset TFExample parse_single_example_ref (mkFlags true)
            (Path "train.tf_record") 2 2 false) 0)
  = snd (run TFExample sample_broken_files reverse_order 1
           (file_based_input_fn_builder TFExample parse_single_example_ref
              (Path "train.tf_record") (squad_name_to_features 2 false) tt) 0).
Proof.
  assert (Hbatch : 0 < 2) by lia.
  assert (Hpasses : (0 < 1)%nat) by lia.
  split; [exact Hbatch |]. split; [exact Hpasses |].
  split; [exact parse_single_example_ref_complete |].
  destruct (constructors_raise_like_input_fn TFExample parse_single_example_ref
              sample_broken_files reverse_order 1 0 (mkFlags true)
              (Path "train.tf_record") 2 2 false true Hbatch Hpasses
              parse_single_example_ref_complete) as (_ & Hsquad & _).
  exact Hsquad.
Defined.

(** X8 at the classifier pipeline over three sample records, batches of 2,
    [drop_remainder] true. *)
Lemma batch_sizes_witness :
  0 < 2 /\
  Forall (fun b : list (Example * Tensor) =>
            0 < Z.of_nat (length b) <= 2 /\ (true = true -> Z.of_nat (length b) = 2))
    (fst (run TFExample sample_classifier_files keep_order 1
            (create_classifier_dataset TFExample parse_single_example_ref
               (mkFlags false) (Path "eval.tf_record") 2 2 false true) 0)).
Proof.
  assert (Hbatch : 0 < 2) by lia.
  split; [exact Hbatch |].
  destruct (batch_sizes TFExample parse_single_example_ref
              sample_classifier_files keep_order 1 0 (mkFlags false)
              (Path "eval.tf_record") 2 2 false true Hbatch) as (H & _ & _).
  exact H.
Defined.

(** X9 at the sample evaluation files. *)
Lemma squad_eval_yields_every_record_witness :
  0 < 2 /\
  length (concat (fst (run TFExample sample_eval_files keep_order 1
                         (create_squad_dataset TFExample parse_single_example_ref
                            (mkFlags false) (Path "dev.tf_record") 2 2 false) 0)))
  = length (sample_eval_files (Path "dev.tf_record")) /\
  length (concat (fst (run TFExample sample_eval_files keep_order 1
                         (create_squad_dataset_v2 TFExample
                            parse_single_example_ref (mkFlags false)
                            (Path "dev_v2.tf_record") 2 2 false) 0)))
  = length (sample_eval_files (Path "dev_v2.tf_record")).
Proof.
  assert (Hbatch : 0 < 2) by lia.
  split; [exact Hbatch |].
  destruct sample_files_parse as (Hsquad & Hv2 & _ & _).
  destruct (squad_eval_yields_every_record TFExample parse_single_example_ref
              sample_eval_files keep_order 1 0 (mkFlags false)
              (Path "dev.tf_record") (Path "dev_v2.tf_record") 2 2
              Hbatch Hsquad Hv2) as (_ & H1 & _ & H2).
  split; symmetry; eapply Forall2_length; eassumption.
Defined.

(** X10 at the classifier pipeline over three sample records, batches of 2. *)
Lemma classifier_eval_drops_less_than_a_batch_witness :
  0 < 2 /\
  (forall r s ex, parse_single_example_ref r s = Ok ex -> dom s ⊆ dom ex) /\
  snd (run TFExample sample_classifier_files keep_order 1
         (create_classifier_dataset TFExample parse_single_example_ref
            (mkFlags false) (Path "eval.tf_record") 2 2 false true) 0) = None.
Proof.
  assert (Hbatch : 0 < 2) by lia.
  split; [exact Hbatch |]. split; [exact parse_single_example_ref_complete |].
  destruct sample_files_parse as (_ & _ & Hclassifier & _).
  destruct (classifier_eval_drops_less_than_a_batch TFExample
              parse_single_example_ref sample_classifier_files keep_order 1 0
              (mkFlags false) (Path "eval.tf_record") 2 2 true Hbatch
              parse_single_example_ref_complete Hclassifier) as [Hnone _].
  exact Hnone.
Defined.

Lemma reverse_order_permutes (T : Type) (k : nat) (n : Z) (l : list T) :
  reverse_order T k n l ≡ₚ l.
Proof. unfold reverse_order. symmetry. apply Permutation_rev. Qed.

(** X11 at the sample training files, shuffled by reversal. *)
Lemma squad_training_permutes_witness :
  0 < 2 /\
  custom_training_loop (mkFlags false) = false /\
  (forall T k n (l : list T), reverse_order T k n l ≡ₚ l) /\
  length (concat (fst (run TFExample sample_training_files reverse_order 1
                         (create_squad_dataset TFExample parse_single_example_ref
                            (mkFlags false) (Path "train.tf_record") 2 2 true) 0)))
  = length (sample_training_files (Path "train.tf_record")).
Proof.
  assert (Hbatch : 0 < 2) by lia.
  split; [exact Hbatch |]. split; [reflexivity |].
  split; [exact reverse_order_permutes |].
  destruct sample_files_parse as (_ & _ & _ & Htraining).
  destruct (squad_training_permutes TFExample parse_single_example_ref
              sample_training_files reverse_order 1 0 (mkFlags false)
              (Path "train.tf_record") 2 2 Hbatch eq_refl
              reverse_order_permutes Htraining)
    as (_ & selected & Hall & Hperm).
  rewrite (Permutation_length Hperm). symmetry.
  eapply Forall2_length. exact Hall.
Defined.

(** X12 at the float mask of a decoded sample v2 record. *)
Lemma decoded_element_types_witness :
  returns_declared_dtypes TFExample parse_single_example_ref
    (classifier_name_to_features 2) /\
  returns_declared_dtypes TFExample parse_single_example_ref
    (squad_name_to_features 2 true) /\
  returns_declared_dtypes TFExample parse_single_example_ref
    (squad_v2_name_to_features 2 true) /\
  forall example t,
    example !! "input_mask" = Some t ->
    decode_record TFExample parse_single_example_ref
      sample_squad_v2_training_record
      (squad_v2_name_to_features 2 true) = Ok example ->
    dtype t = DT_FLOAT.
Proof.
  assert (H1 : returns_declared_dtypes TFExample parse_single_example_ref
                 (classifier_name_to_features 2)).
  { apply parse_single_example_ref_dtypes. intros name feature H.
    apply (sample_schemas_without_default name). auto. }
  assert (H2 : returns_declared_dtypes TFExample parse_single_example_ref
                 (squad_name_to_features 2 true)).
  { apply parse_single_example_ref_dtypes. intros name feature H.
    apply (sample_schemas_without_default name). auto. }
  assert (H3 : returns_declared_dtypes TFExample parse_single_example_ref
                 (squad_v2_name_to_features 2 true)).
  { apply parse_single_example_ref_dtypes. intros name feature H.
    apply (sample_schemas_without_default name). auto. }
  split; [exact H1 |]. split; [exact H2 |]. split; [exact H3 |].
  intros example t Hname Hdecode.
  destruct (decoded_element_types TFExample parse_single_example_ref 2 true
              sample_squad_v2_training_record example "input_mask" t
              H1 H2 H3 Hname) as (_ & _ & Hv2).
  exact (Hv2 Hdecode).
Defined.

(** The sample v2 training record does decode, so the statement above is
    about an actual example. *)
Example decode_sample_v2_mask :
  (example ← decode_record TFExample parse_single_example_ref
               sample_squad_v2_training_record
               (squad_v2_name_to_features 2 true);
   Ok (dtype <$> example !! "input_mask", dtype <$> example !! "input_ids"))
  = Ok (Some DT_FLOAT, Some DT_INT32).
Proof. vm_compute. reflexivity. Qed.
